(** * Query / view-state engine of the data dashboard

    A shallow embedding of the client-side state logic of the dashboard:
    the [DataTable] component (query state, filter draft, debounced
    notification of the parent), the [DatasetView] page (initial load and
    page fetches), the [ChartContainer] component (chart configuration and
    regeneration), the axios gateway interceptors and the [AuthProvider]
    login / register routines.

    React state is modelled by explicit state passing: an event handler
    produces the list of state updates it enqueues, a commit applies them,
    and effects run after the commit when one of their dependencies was
    replaced.  Timers run on a virtual clock ([Z] time units), network
    completions are events that carry the server's answer. *)

From Stdlib Require Import ZArith List Lia Ascii.
From stdpp Require Import base option list strings gmap.

Set Default Proof Using "Type".

(** JavaScript truthiness of a string: only the empty string is falsy. *)
Definition truthy (s : string) : bool :=
  match s with
  | EmptyString => false
  | String _ _ => true
  end.

(** ** DataTable.jsx: the query state model *)
Module DataTable.

Local Open Scope Z_scope.

Inductive SortOrder := asc | desc.

#[global] Instance SortOrder_eq_dec : EqDecision SortOrder.
Proof. solve_decision. Defined.

Record Filter := mkFilter {
  column : string;
  operator : string;
  value : string
}.

Record Query := mkQuery {
  page : Z;
  limit : Z;
  sort_by : string;
  sort_order : SortOrder;
  search : string;
  filters : list Filter
}.

(** The component's state cells, one per [useState]. *)
Record State := mkState {
  query : Query;
  showFilters : bool;
  filterColumn : string;
  filterOperator : string;
  filterValue : string
}.

(** [useState] initial values. *)
Definition initialQuery : Query :=
  {| page := 1; limit := 10; sort_by := ""; sort_order := asc;
     search := ""; filters := [] |}.

Definition initialState : State :=
  {| query := initialQuery; showFilters := false; filterColumn := "";
     filterOperator := "contains"; filterValue := "" |}.

(** A state update enqueued by a handler.  [setQuery] is always called
    with an updater function of the previous value. *)
Inductive Update :=
| setQuery (f : Query → Query)
| setShowFilters (b : bool)
| setFilterColumn (v : string)
| setFilterOperator (v : string)
| setFilterValue (v : string).

Definition handleSort (column : string) : list Update :=
  [ setQuery (λ prev,
      {| page := 1;
         limit := limit prev;
         sort_by := column;
         sort_order :=
           if bool_decide (sort_by prev = column)
              && bool_decide (sort_order prev = asc)
           then desc else asc;
         search := search prev;
         filters := filters prev |}) ].

Definition handleSearch (text : string) : list Update :=
  [ setQuery (λ prev,
      {| page := 1;
         limit := limit prev;
         sort_by := sort_by prev;
         sort_order := sort_order prev;
         search := text;
         filters := filters prev |}) ].

Definition handlePageChange (n : Z) : list Update :=
  [ setQuery (λ prev,
      {| page := n;
         limit := limit prev;
         sort_by := sort_by prev;
         sort_order := sort_order prev;
         search := search prev;
         filters := filters prev |}) ].

Definition handleLimitChange (n : Z) : list Update :=
  [ setQuery (λ prev,
      {| page := 1;
         limit := n;
         sort_by := sort_by prev;
         sort_order := sort_order prev;
         search := search prev;
         filters := filters prev |}) ].

(** [addFilter] reads the draft cells of the current render. *)
Definition addFilter (s : State) : list Update :=
  if negb (truthy (filterColumn s)) || negb (truthy (filterValue s))
  then []
  else
    let newFilter :=
      {| column := filterColumn s;
         operator := filterOperator s;
         value := filterValue s |} in
    [ setQuery (λ prev,
        {| page := 1;
           limit := limit prev;
           sort_by := sort_by prev;
           sort_order := sort_order prev;
           search := search prev;
           filters := filters prev ++ [newFilter] |});
      setFilterColumn "";
      setFilterValue "" ].

(** [array.filter((_, i) => i !== index)], with [i] counted from [from]. *)
Fixpoint filter_index_ne {A} (from index : nat) (l : list A) : list A :=
  match l with
  | [] => []
  | x :: l' =>
      if bool_decide (from ≠ index)
      then x :: filter_index_ne (S from) index l'
      else filter_index_ne (S from) index l'
  end.

Definition removeFilter (index : nat) : list Update :=
  [ setQuery (λ prev,
      {| page := 1;
         limit := limit prev;
         sort_by := sort_by prev;
         sort_order := sort_order prev;
         search := search prev;
         filters := filter_index_ne 0 index (filters prev) |}) ].

(** What the user can do to a rendered table. *)
Inductive Action :=
| ClickSort (column : string)
| TypeSearch (text : string)
| ClickPage (n : Z)
| SelectLimit (n : Z)
| ClickAddFilter
| ClickRemoveFilter (index : nat)
| ClickFilters
| SelectFilterColumn (v : string)
| SelectFilterOperator (v : string)
| TypeFilterValue (v : string).

(** The handler wired to each control. *)
Definition updates_of (a : Action) (s : State) : list Update :=
  match a with
  | ClickSort column => handleSort column
  | TypeSearch text => handleSearch text
  | ClickPage n => handlePageChange n
  | SelectLimit n => handleLimitChange n
  | ClickAddFilter => addFilter s
  | ClickRemoveFilter index => removeFilter index
  | ClickFilters => [setShowFilters (negb (showFilters s))]
  | SelectFilterColumn v => [setFilterColumn v]
  | SelectFilterOperator v => [setFilterOperator v]
  | TypeFilterValue v => [setFilterValue v]
  end.

Definition apply_update (s : State) (u : Update) : State :=
  match u with
  | setQuery f =>
      {| query := f (query s); showFilters := showFilters s;
         filterColumn := filterColumn s;
         filterOperator := filterOperator s;
         filterValue := filterValue s |}
  | setShowFilters b =>
      {| query := query s; showFilters := b;
         filterColumn := filterColumn s;
         filterOperator := filterOperator s;
         filterValue := filterValue s |}
  | setFilterColumn v =>
      {| query := query s; showFilters := showFilters s;
         filterColumn := v;
         filterOperator := filterOperator s;
         filterValue := filterValue s |}
  | setFilterOperator v =>
      {| query := query s; showFilters := showFilters s;
         filterColumn := filterColumn s;
         filterOperator := v;
         filterValue := filterValue s |}
  | setFilterValue v =>
      {| query := query s; showFilters := showFilters s;
         filterColumn := filterColumn s;
         filterOperator := filterOperator s;
         filterValue := v |}
  end.

(** The queued updates are applied in order at the next render. *)
Definition commit (us : list Update) (s : State) : State :=
  fold_left apply_update us s.

Definition is_setQuery (u : Update) : bool :=
  match u with setQuery _ => true | _ => false end.

(** Every [setQuery] updater builds a fresh object, so the [query]
    dependency of the effect is replaced exactly when [setQuery] was
    called. *)
Definition query_replaced (us : list Update) : bool :=
  existsb is_setQuery us.

Definition handle (a : Action) (s : State) : State :=
  commit (updates_of a s) s.

Definition run (acts : list Action) (s : State) : State :=
  fold_left (λ s a, handle a s) acts s.

(** Whether an action is a Query mutation in the state it is applied to. *)
Definition mutates (a : Action) (s : State) : bool :=
  query_replaced (updates_of a s).

(** *** The debounce effect

    [useEffect(() => { const t = setTimeout(() => onQueryChange(query), 300);
                       return () => clearTimeout(t) }, [query])]

    A mounted instance owns at most one pending timer.  The timer is
    recorded with its due time and the [query] its callback closed over. *)
Definition debounce : Z := 300.

Record Table := mkTable {
  comp : State;
  timer : option (Z * Query)
}.

Definition setTimeout (now : Z) (q : Query) : option (Z * Query) :=
  Some (now + debounce, q).

(** First render: the effect runs once with the initial query. *)
Definition mount (now : Z) : Table :=
  {| comp := initialState; timer := setTimeout now initialQuery |}.

(** The runtime runs a timer callback that is due; the result lists the
    [onQueryChange] invocations made, each with the time it was due. *)
Definition fire (now : Z) (tb : Table) : Table * list (Z * Query) :=
  match timer tb with
  | Some (due, q) =>
      if bool_decide (due ≤ now)
      then ({| comp := comp tb; timer := None |}, [(due, q)])
      else (tb, [])
  | None => (tb, [])
  end.

(** A user action at time [now]: the handler's updates are committed;
    when [query] was replaced the effect's cleanup clears the old timer
    and the effect starts a new one for the new query. *)
Definition act (now : Z) (a : Action) (tb : Table) : Table :=
  let us := updates_of a (comp tb) in
  let s' := commit us (comp tb) in
  {| comp := s';
     timer := if query_replaced us then setTimeout now (query s')
              else timer tb |}.

(** A table driven on its own, with [onQueryChange] recorded.  Unmounting
    runs the effect's cleanup, which clears the timer. *)
Record World := mkWorld {
  table : option Table;
  calls : list (Z * Query)
}.

Inductive Event :=
| Mount
| Unmount
| Do (a : Action).

Definition tick (now : Z) (w : World) : World :=
  match table w with
  | Some tb =>
      let '(tb', out) := fire now tb in
      {| table := Some tb'; calls := calls w ++ out |}
  | None => w
  end.

Definition step (w : World) (te : Z * Event) : World :=
  let '(now, e) := te in
  let w := tick now w in
  match e, table w with
  | Mount, None => {| table := Some (mount now); calls := calls w |}
  | Mount, Some _ => w
  | Unmount, _ => {| table := None; calls := calls w |}
  | Do a, Some tb => {| table := Some (act now a tb); calls := calls w |}
  | Do a, None => w
  end.

Definition play (evs : list (Z * Event)) (w : World) : World :=
  fold_left step evs w.

(** The filter draft as the form shows it. *)
Definition draft (s : State) : Filter :=
  {| column := filterColumn s; operator := filterOperator s;
     value := filterValue s |}.

Definition toggle (o : SortOrder) : SortOrder :=
  match o with asc => desc | desc => asc end.

(** A burst after a mutation at time [last] in state [s]: every further
    action comes less than the debounce window after the latest mutation
    before it, that is, while the timer started by that mutation is
    pending.  Actions that are not mutations (edits of the filter form, a
    rejected [addFilter]) may come in between; they do not restart the
    window. *)
Fixpoint burst (last : Z) (s : State) (evs : list (Z * Action)) : Prop :=
  match evs with
  | [] => True
  | (t, a) :: rest =>
      last ≤ t ∧ t < last + debounce
      ∧ burst (if mutates a s then t else last) (handle a s) rest
  end.

(** The time of the last mutation of such a burst. *)
Fixpoint last_mutation (last : Z) (s : State) (evs : list (Z * Action)) : Z :=
  match evs with
  | [] => last
  | (t, a) :: rest =>
      last_mutation (if mutates a s then t else last) (handle a s) rest
  end.

Definition as_events (evs : list (Z * Action)) : list (Z * Event) :=
  map (λ te, (fst te, Do (snd te))) evs.

(** A table whose timer was started at [last] for the current query. *)
Definition pending (last : Z) (s : State) : Table :=
  {| comp := s; timer := setTimeout last (query s) |}.

(** *** Rendering helpers *)

Inductive SortIcon := ArrowUpIcon | ArrowDownIcon.

(** [getSortIcon]: [None] is the [null] of a column not sorted by. *)
Definition getSortIcon (s : State) (column : string) : option SortIcon :=
  if bool_decide (sort_by (query s) ≠ column) then None
  else Some (if bool_decide (sort_order (query s) = asc)
             then ArrowUpIcon else ArrowDownIcon).

(** *** Vocabulary for runs of a table *)

(** The world before the table is first mounted. *)
Definition unmounted : World := {| table := None; calls := [] |}.

(** Actions none of which is a mutation in the state it meets. *)
Fixpoint quiet (s : State) (evs : list (Z * Action)) : Prop :=
  match evs with
  | [] => True
  | (_, a) :: rest => mutates a s = false ∧ quiet (handle a s) rest
  end.

(** Events whose times never go back, from [clock] on. *)
Fixpoint in_time_order (clock : Z) (evs : list (Z * Event)) : Prop :=
  match evs with
  | [] => True
  | (t, _) :: rest => clock ≤ t ∧ in_time_order t rest
  end.

(** Consecutive calls of a log are at least one debounce window apart. *)
Definition spaced (log : list (Z * Query)) : Prop :=
  ∀ (i : nat) (c c' : Z * Query),
    log !! i = Some c → log !! S i = Some c' → fst c + debounce ≤ fst c'.

(** What holds of a world whose events so far came at or before [clock]:
    the log is spaced, no call is later than [clock], and the pending
    timer is due a full window after every call made. *)
Definition spaced_inv (clock : Z) (w : World) : Prop :=
  spaced (calls w)
  ∧ (∀ c, c ∈ calls w → fst c ≤ clock)
  ∧ (∀ tb d q, table w = Some tb → timer tb = Some (d, q) →
       ∀ c, c ∈ calls w → fst c + debounce ≤ d).

End DataTable.

(** ** services/api.js: the gateway and its interceptors *)
Module Api.

Local Open Scope Z_scope.

(** The part of the browser the gateway touches: [localStorage] and
    [window.location.href]. *)
Record Browser := mkBrowser {
  localStorage : gmap string string;
  location : string
}.

Definition getItem (key : string) (b : Browser) : option string :=
  localStorage b !! key.

Definition setItem (key val : string) (b : Browser) : Browser :=
  {| localStorage := <[key := val]> (localStorage b);
     location := location b |}.

Definition removeItem (key : string) (b : Browser) : Browser :=
  {| localStorage := delete key (localStorage b);
     location := location b |}.

Definition navigate_to (href : string) (b : Browser) : Browser :=
  {| localStorage := localStorage b; location := href |}.

(** An outgoing request: verb, path and headers. *)
Record Config := mkConfig {
  method : string;
  url : string;
  headers : gmap string string
}.

(** A rejected call.  [status] is [error.response?.status] (absent on a
    network error), [detail] is [error.response?.data?.detail]. *)
Record Error := mkError {
  status : option Z;
  detail : option string
}.

Definition default_headers : gmap string string :=
  {[ "Content-Type" := "application/json" ]}.

Definition request (method url : string) : Config :=
  {| method := method; url := url; headers := default_headers |}.

(** [datasetAPI.upload] overrides the content type. *)
Definition upload_request : Config :=
  {| method := "POST"; url := "/datasets";
     headers := <["Content-Type" := "multipart/form-data"]> default_headers |}.

(** [api.interceptors.request]: attach the stored token when truthy. *)
Definition request_interceptor (b : Browser) (config : Config) : Config :=
  match getItem "access_token" b with
  | Some token =>
      if truthy token
      then {| method := method config; url := url config;
              headers :=
                <["Authorization" := "Bearer " +:+ token]> (headers config) |}
      else config
  | None => config
  end.

(** [api.interceptors.response], rejection branch: on a 401 clear the
    session keys and leave for the login page; the error is rejected
    again in every case. *)
Definition response_error_interceptor (e : Error) (b : Browser) : Browser :=
  if bool_decide (status e = Some 401)
  then navigate_to "/login"
         (removeItem "user" (removeItem "access_token" b))
  else b.

(** The server's answer to one call. *)
Inductive Response (A : Type) :=
| Resolved (data : A)
| Rejected (e : Error).
Arguments Resolved {A} data.
Arguments Rejected {A} e.

(** What reaches the caller: the fulfilled branch passes the response
    through, the rejected one runs the interceptor first. *)
Definition receive {A} (r : Response A) (b : Browser) : Browser :=
  match r with
  | Resolved _ => b
  | Rejected e => response_error_interceptor e b
  end.

(** [error.response?.data?.detail || fallback] *)
Definition message_of (e : Error) (fallback : string) : string :=
  match detail e with
  | Some d => if truthy d then d else fallback
  | None => fallback
  end.

Definition bearer (config : Config) : option string :=
  headers config !! "Authorization".

Definition cleared (b : Browser) : Browser :=
  {| localStorage := delete "user" (delete "access_token" (localStorage b));
     location := "/login" |}.

End Api.

(** ** contexts/AuthContext.jsx: login, register, logout *)
Module AuthContext.

Import Api.

Local Open Scope Z_scope.

Inductive Toast :=
| success (msg : string)
| error (msg : string).

Section Provider.

(** The user profile as the server sends it; only [full_name] is read.
    [JSON_parse] gives [None] where [JSON.parse] throws. *)
Variable User : Type.
Variable full_name : User → string.
Variable JSON_stringify : User → string.
Variable JSON_parse : string → option User.

(** A fulfilled answer of the token endpoints with the two fields the
    provider reads. *)
Record AuthResponse := mkAuthResponse {
  access_token : string;
  user_of : User
}.

(** [response.user] when it is no object. *)
Inductive Missing :=
| null
| undefined.

(** What the gateway hands back on a fulfilled call ([response.data]):
    a body with a user, a body whose [user] is null or absent
    ([token] is the text stored for [response.access_token]), or no
    body at all (null or undefined). *)
Inductive AuthBody :=
| with_user (r : AuthResponse)
| without_user (token : string) (m : Missing)
| no_body.

(** What leaves [login] and [register]: the gateway's rejection,
    rethrown, or the TypeError of a property read on null or
    undefined. *)
Inductive Thrown :=
| Gateway (e : Error)
| TypeError.

(** Provider state, the browser, the toasts shown and the requests
    sent so far (after the request interceptor). *)
Record World := mkWorld {
  browser : Browser;
  user : option User;
  isLoading : bool;
  toasts : list Toast;
  sent : list Config
}.

(** Any gateway call leaves through the request interceptor. *)
Definition send (config : Config) (w : World) : World :=
  {| browser := browser w; user := user w; isLoading := isLoading w;
     toasts := toasts w;
     sent := sent w ++ [request_interceptor (browser w) config] |}.

(** Any gateway answer comes back through the response interceptor. *)
Definition answer {A} (r : Response A) (w : World) : World :=
  {| browser := receive r (browser w); user := user w;
     isLoading := isLoading w; toasts := toasts w; sent := sent w |}.

Definition set_isLoading (v : bool) (w : World) : World :=
  {| browser := browser w; user := user w; isLoading := v;
     toasts := toasts w; sent := sent w |}.

Definition toast (t : Toast) (w : World) : World :=
  {| browser := browser w; user := user w; isLoading := isLoading w;
     toasts := toasts w ++ [t]; sent := sent w |}.

(** The text [localStorage.setItem] keeps for a missing user:
    [JSON.stringify(null)] is the text null, and [undefined] is stored
    as its name. *)
Definition stored_missing (m : Missing) : string :=
  match m with
  | null => "null"
  | undefined => "undefined"
  end.

(** The [try] block shared by [login] and [register] after the awaited
    call resolved: persist the session, set the user, greet.  The second
    component is [None] when the block ran to its end and the exception
    when a statement threw; what was written before the throw stays. *)
Definition store_session (greeting : string) (body : AuthBody)
    (w : World) : World * option Thrown :=
  match body with
  | with_user r =>
      let b := setItem "user" (JSON_stringify (user_of r))
                 (setItem "access_token" (access_token r) (browser w)) in
      (toast (success (greeting +:+ full_name (user_of r) +:+ "!"))
         {| browser := b; user := Some (user_of r);
            isLoading := isLoading w; toasts := toasts w; sent := sent w |},
       None)
  | without_user token m =>
      let b := setItem "user" (stored_missing m)
                 (setItem "access_token" token (browser w)) in
      ({| browser := b; user := None;
          isLoading := isLoading w; toasts := toasts w; sent := sent w |},
       Some TypeError)
  | no_body => (w, Some TypeError)
  end.

(** [login] up to its [await]: the request has left. *)
Definition login_request (w : World) : World :=
  send (request "POST" "/auth/login") (set_isLoading true w).

(** [login] from the [await] on: [try], [catch], [finally].  The second
    component is what the caller of [login] observes: [inl t] when [t]
    is rethrown.  A TypeError has no [response], so the [catch] block
    shows the fallback text for it. *)
Definition login_settle (r : Response AuthBody) (w : World)
    : World * (Thrown + unit) :=
  let w := answer r w in
  match r with
  | Resolved body =>
      match store_session "Welcome back, " body w with
      | (w, None) => (set_isLoading false w, inr ())
      | (w, Some t) =>
          (set_isLoading false (toast (error "Login failed") w), inl t)
      end
  | Rejected e =>
      (set_isLoading false
         (toast (error (message_of e "Login failed")) w),
       inl (Gateway e))
  end.

Definition login (r : Response AuthBody) (w : World)
    : World * (Thrown + unit) :=
  login_settle r (login_request w).

Definition register_request (w : World) : World :=
  send (request "POST" "/auth/register") (set_isLoading true w).

Definition register_settle (r : Response AuthBody) (w : World)
    : World * (Thrown + unit) :=
  let w := answer r w in
  match r with
  | Resolved body =>
      match store_session "Welcome to DataViz Pro, " body w with
      | (w, None) => (set_isLoading false w, inr ())
      | (w, Some t) =>
          (set_isLoading false (toast (error "Registration failed") w),
           inl t)
      end
  | Rejected e =>
      (set_isLoading false
         (toast (error (message_of e "Registration failed")) w),
       inl (Gateway e))
  end.

Definition register (r : Response AuthBody) (w : World)
    : World * (Thrown + unit) :=
  register_settle r (register_request w).

Definition logout (w : World) : World :=
  toast (success "Logged out successfully")
    {| browser := removeItem "user" (removeItem "access_token" (browser w));
       user := None; isLoading := isLoading w; toasts := toasts w;
       sent := sent w |}.

(** The [catch] block of [initAuth]. *)
Definition drop_session (w : World) : World :=
  {| browser := removeItem "user" (removeItem "access_token" (browser w));
     user := None; isLoading := isLoading w; toasts := toasts w;
     sent := sent w |}.

(** [token && savedUser] *)
Definition stored_session (w : World) : option string :=
  match getItem "access_token" (browser w), getItem "user" (browser w) with
  | Some token, Some savedUser =>
      if truthy token && truthy savedUser then Some savedUser else None
  | _, _ => None
  end.

(** [initAuth] up to its [await] (or to its end when nothing is awaited). *)
Definition initAuth_request (w : World) : World :=
  match stored_session w with
  | Some savedUser =>
      match JSON_parse savedUser with
      | Some userData =>
          send (request "GET" "/auth/me")
            {| browser := browser w; user := Some userData;
               isLoading := isLoading w; toasts := toasts w;
               sent := sent w |}
      | None => set_isLoading false (drop_session w)
      end
  | None => set_isLoading false w
  end.

(** [initAuth] from the [await] on. *)
Definition initAuth_settle (r : Response unit) (w : World) : World :=
  let w := answer r w in
  match r with
  | Resolved _ => set_isLoading false w
  | Rejected _ => set_isLoading false (drop_session w)
  end.

(** Everything in the application that reaches the gateway or the
    session.  A call made by any component is a request leaving and,
    later, its answer arriving (the payload type does not matter to the
    interceptors); other calls may start or finish in between. *)
Inductive Event :=
| Request (method url : string)
| Upload
| Answer (r : Response unit)
| InitAuth
| InitAuthSettle (r : Response unit)
| LoginRequest
| LoginSettle (r : Response AuthBody)
| RegisterRequest
| RegisterSettle (r : Response AuthBody)
| Logout.

Definition step (w : World) (e : Event) : World :=
  match e with
  | Request method url => send (request method url) w
  | Upload => send upload_request w
  | Answer r => answer r w
  | InitAuth => initAuth_request w
  | InitAuthSettle r => initAuth_settle r w
  | LoginRequest => login_request w
  | LoginSettle r => fst (login_settle r w)
  | RegisterRequest => register_request w
  | RegisterSettle r => fst (register_settle r w)
  | Logout => logout w
  end.

Definition play (evs : list Event) (w : World) : World :=
  fold_left step evs w.

(** A fulfilled answer to a login or registration: the events that can
    store a token. *)
Definition signs_in (e : Event) : bool :=
  match e with
  | LoginSettle (Resolved _) | RegisterSettle (Resolved _) => true
  | _ => false
  end.

(** The requests sent while [evs] is played from [w]. *)
Definition sent_during (evs : list Event) (w : World) : list Config :=
  drop (length (sent w)) (sent (play evs w)).

(** The request an event sends from [w], before the interceptor. *)
Definition outgoing (w : World) (e : Event) : list Config :=
  match e with
  | Request method url => [request method url]
  | Upload => [upload_request]
  | InitAuth =>
      match stored_session w ≫= JSON_parse with
      | Some _ => [request "GET" "/auth/me"]
      | None => []
      end
  | LoginRequest => [request "POST" "/auth/login"]
  | RegisterRequest => [request "POST" "/auth/register"]
  | _ => []
  end.

(** The error an event delivers to the response interceptor. *)
Definition rejection (e : Event) : option Error :=
match e with
| Answer (Rejected err) | InitAuthSettle (Rejected err)
| LoginSettle (Rejected err) | RegisterSettle (Rejected err) => Some err
| _ => None
end.

End Provider.

Arguments mkAuthResponse {User} access_token user_of.
Arguments access_token {User} a.
Arguments user_of {User} a.
Arguments with_user {User} r.
Arguments without_user {User} token m.
Arguments no_body {User}.
Arguments mkWorld {User} browser user isLoading toasts sent.
Arguments browser {User} w.
Arguments user {User} w.
Arguments isLoading {User} w.
Arguments toasts {User} w.
Arguments sent {User} w.
Arguments send {User} config w.
Arguments answer {User A} r w.
Arguments set_isLoading {User} v w.
Arguments toast {User} t w.
Arguments login_request {User} w.
Arguments register_request {User} w.
Arguments logout {User} w.
Arguments signs_in {User} e.
Arguments Request {User} method url.
Arguments Upload {User}.
Arguments Answer {User} r.
Arguments InitAuth {User}.
Arguments InitAuthSettle {User} r.
Arguments drop_session {User} w.
Arguments initAuth_request {User} JSON_parse w.
Arguments initAuth_settle {User} r w.
Arguments stored_session {User} w.
Arguments LoginRequest {User}.
Arguments LoginSettle {User} r.
Arguments RegisterRequest {User}.
Arguments RegisterSettle {User} r.
Arguments Logout {User}.
Arguments outgoing {User} JSON_parse w e.
Arguments rejection {User} e.

(** The provider of a page just loaded, over the browser as it was left. *)
Definition reloaded {User : Type} (b : Browser) : World User :=
  {| browser := b; user := None; isLoading := true; toasts := [];
     sent := [] |}.

Definition signed_in : World string :=
  {| browser :=
       {| localStorage := <["user" := "ann"]> (<["access_token" := "t0"]> ∅);
          location := "/" |};
     user := Some "ann"; isLoading := false; toasts := []; sent := [] |}.

Definition unauthorized : Error :=
  {| status := Some 401; detail := Some "Incorrect email or password" |}.

Definition server_error : Error :=
  {| status := Some 500; detail := None |}.

End AuthContext.

(** ** components/Charts/ChartContainer.jsx *)
Module ChartContainer.

Import Api.

(** The chart payload is handed to chart.js as received. *)
Definition ChartData := string.

(** [chartConfig] is a plain object; [handleConfigChange] writes it with
    a computed key, so it is kept as a finite map from field name to
    value. *)
Definition head_or_empty (l : list string) : string :=
  match l with
  | c :: _ => if truthy c then c else ""
  | [] => ""
  end.

Definition initialConfig (columns numericColumns : list string)
    : gmap string string :=
  <["chart_type" := "bar"]>
    (<["x_axis" := head_or_empty columns]>
      (<["y_axis" := head_or_empty numericColumns]>
        (<["group_by" := ""]>
          (<["aggregate" := "count"]> ∅)))).

Record State := mkState {
  datasetId : string;
  chartConfig : gmap string string;
  chartData : option ChartData;
  isLoading : bool;
  next_request : nat;
  in_flight : list nat;
  calls : list (string * gmap string string);
  toasts : list string
}.

(** [chartConfig.x_axis], [undefined] being as falsy as [""]. *)
Definition x_axis (c : gmap string string) : string :=
  default "" (c !! "x_axis").

(** [generateChart] up to its [await]: [datasetAPI.generateChart] is
    called with the props and state of the current render. *)
Definition generateChart (s : State) : State :=
  {| datasetId := datasetId s;
     chartConfig := chartConfig s;
     chartData := chartData s;
     isLoading := true;
     next_request := S (next_request s);
     in_flight := in_flight s ++ [next_request s];
     calls := calls s ++ [(datasetId s, chartConfig s)];
     toasts := toasts s |}.

(** [generateChart] from the [await] on. *)
Definition generateChart_settle (n : nat) (r : Response ChartData)
    (s : State) : State :=
  if bool_decide (n ∈ in_flight s)
  then
    {| datasetId := datasetId s;
       chartConfig := chartConfig s;
       chartData :=
         match r with Resolved d => Some d | Rejected _ => chartData s end;
       isLoading := false;
       next_request := next_request s;
       in_flight := filter (λ m, m ≠ n) (in_flight s);
       calls := calls s;
       toasts :=
         match r with
         | Resolved _ => toasts s
         | Rejected e =>
             toasts s ++ [message_of e "Failed to generate chart"]
         end |}
  else s.

(** [useEffect(() => { if (chartConfig.x_axis) generateChart() },
               [chartConfig, datasetId])] *)
Definition effect (s : State) : State :=
  if truthy (x_axis (chartConfig s)) then generateChart s else s.

Definition mount (datasetId : string) (columns numericColumns : list string)
    : State :=
  effect
    {| datasetId := datasetId;
       chartConfig := initialConfig columns numericColumns;
       chartData := None; isLoading := false;
       next_request := 0; in_flight := []; calls := []; toasts := [] |}.

(** [setChartConfig(prev => ({...prev, [key]: value}))] *)
Definition set_field (key value : string) (c : gmap string string)
    : gmap string string :=
  <[key := value]> c.

(** [handleConfigChange]: the new object replaces [chartConfig], so the
    effect runs after the commit. *)
Definition handleConfigChange (key value : string) (s : State) : State :=
  effect
    {| datasetId := datasetId s;
       chartConfig := set_field key value (chartConfig s);
       chartData := chartData s; isLoading := isLoading s;
       next_request := next_request s; in_flight := in_flight s;
       calls := calls s; toasts := toasts s |}.

(** The parent renders the container with a [datasetId] prop; the effect
    runs when the prop differs from the one of the previous render. *)
Definition receive_datasetId (id : string) (s : State) : State :=
  if bool_decide (id = datasetId s) then s
  else
    effect
      {| datasetId := id;
         chartConfig := chartConfig s;
         chartData := chartData s; isLoading := isLoading s;
         next_request := next_request s; in_flight := in_flight s;
         calls := calls s; toasts := toasts s |}.

Inductive Event :=
| ConfigChange (key value : string)
| DatasetId (id : string)
| Refresh
| ChartResponse (n : nat) (r : Response ChartData).

Definition step (s : State) (e : Event) : State :=
  match e with
  | ConfigChange key value => handleConfigChange key value s
  | DatasetId id => receive_datasetId id s
  | Refresh => if isLoading s then s else generateChart s
  | ChartResponse n r => generateChart_settle n r s
  end.

Definition play (evs : list Event) (s : State) : State :=
  fold_left step evs s.

(** The gateway calls made by one step. *)
Definition issued (before after : State) : list (string * gmap string string) :=
  drop (length (calls before)) (calls after).

Definition is_Refresh (e : Event) : bool :=
  match e with Refresh => true | _ => false end.

End ChartContainer.

(** ** pages/DatasetView.jsx: initial load and page fetches

    One view, mounted for one route parameter [id].  Answers of the
    gateway are events; the [getData] calls are numbered in issue order so
    that an answer names the call it belongs to.  The child [DataTable] is
    part of the state while it is rendered, with its timer; its
    [onQueryChange] is [loadData]. *)
Module DatasetView.

Import Api DataTable.

Local Open Scope Z_scope.

Record Pagination := mkPagination {
  current : Z;
  pages : Z;
  total : Z
}.

(** A row maps column names to cell values. *)
Record PageResult := mkPageResult {
  rows : list (gmap string string);
  pagination : Pagination
}.

Record Dataset := mkDataset {
  dataset_id : string;
  columns : list string
}.

Record Stats := mkStats {
  numeric_columns : list string;
  categorical_columns : list string
}.

(** How far [loadAllData] has come: waiting for [Promise.all] over
    [loadDataset] and [loadStats] (a flag is [true] while that call is
    pending), waiting for its own [loadData] call, or finished.  [Idle]
    is a view whose [id] is falsy: the effect does nothing. *)
Inductive Phase :=
| Idle
| AwaitingMeta (datasets_pending stats_pending : bool)
| AwaitingData (n : nat)
| Finished.

Record View := mkView {
  id : string;  (* the route parameter *)
  left : bool;  (* [navigate('/')] was called *)
  dataset : option Dataset;
  stats : option Stats;
  data : option PageResult;
  activeTab : string;
  isLoading : bool;
  isDataLoading : bool;
  phase : Phase;  (* where [loadAllData] stands *)
  next_request : nat;
  in_flight : list (nat * Query);  (* [getData] calls not yet settled *)
  getData_calls : list (string * Query);  (* [datasetAPI.getData] calls, in issue order *)
  toasts : list string;
  table : option Table  (* the child [DataTable], when rendered *)
}.

Definition set_left (x : bool) (v : View) : View :=
  {| id := id v; left := x; dataset := dataset v; stats := stats v;
     data := data v; activeTab := activeTab v; isLoading := isLoading v;
     isDataLoading := isDataLoading v; phase := phase v;
     next_request := next_request v; in_flight := in_flight v;
     getData_calls := getData_calls v; toasts := toasts v;
     table := table v |}.

Definition set_dataset (x : option Dataset) (v : View) : View :=
  {| id := id v; left := left v; dataset := x; stats := stats v;
     data := data v; activeTab := activeTab v; isLoading := isLoading v;
     isDataLoading := isDataLoading v; phase := phase v;
     next_request := next_request v; in_flight := in_flight v;
     getData_calls := getData_calls v; toasts := toasts v;
     table := table v |}.

Definition set_stats (x : option Stats) (v : View) : View :=
  {| id := id v; left := left v; dataset := dataset v; stats := x;
     data := data v; activeTab := activeTab v; isLoading := isLoading v;
     isDataLoading := isDataLoading v; phase := phase v;
     next_request := next_request v; in_flight := in_flight v;
     getData_calls := getData_calls v; toasts := toasts v;
     table := table v |}.

Definition set_data (x : option PageResult) (v : View) : View :=
  {| id := id v; left := left v; dataset := dataset v; stats := stats v;
     data := x; activeTab := activeTab v; isLoading := isLoading v;
     isDataLoading := isDataLoading v; phase := phase v;
     next_request := next_request v; in_flight := in_flight v;
     getData_calls := getData_calls v; toasts := toasts v;
     table := table v |}.

Definition set_activeTab (x : string) (v : View) : View :=
  {| id := id v; left := left v; dataset := dataset v; stats := stats v;
     data := data v; activeTab := x; isLoading := isLoading v;
     isDataLoading := isDataLoading v; phase := phase v;
     next_request := next_request v; in_flight := in_flight v;
     getData_calls := getData_calls v; toasts := toasts v;
     table := table v |}.

Definition set_isLoading (x : bool) (v : View) : View :=
  {| id := id v; left := left v; dataset := dataset v; stats := stats v;
     data := data v; activeTab := activeTab v; isLoading := x;
     isDataLoading := isDataLoading v; phase := phase v;
     next_request := next_request v; in_flight := in_flight v;
     getData_calls := getData_calls v; toasts := toasts v;
     table := table v |}.

Definition set_isDataLoading (x : bool) (v : View) : View :=
  {| id := id v; left := left v; dataset := dataset v; stats := stats v;
     data := data v; activeTab := activeTab v; isLoading := isLoading v;
     isDataLoading := x; phase := phase v; next_request := next_request v;
     in_flight := in_flight v; getData_calls := getData_calls v;
     toasts := toasts v; table := table v |}.

Definition set_phase (x : Phase) (v : View) : View :=
  {| id := id v; left := left v; dataset := dataset v; stats := stats v;
     data := data v; activeTab := activeTab v; isLoading := isLoading v;
     isDataLoading := isDataLoading v; phase := x;
     next_request := next_request v; in_flight := in_flight v;
     getData_calls := getData_calls v; toasts := toasts v;
     table := table v |}.

Definition set_table (x : option Table) (v : View) : View :=
  {| id := id v; left := left v; dataset := dataset v; stats := stats v;
     data := data v; activeTab := activeTab v; isLoading := isLoading v;
     isDataLoading := isDataLoading v; phase := phase v;
     next_request := next_request v; in_flight := in_flight v;
     getData_calls := getData_calls v; toasts := toasts v; table := x |}.

Definition add_toast (msg : string) (v : View) : View :=
  {| id := id v; left := left v; dataset := dataset v; stats := stats v;
     data := data v; activeTab := activeTab v; isLoading := isLoading v;
     isDataLoading := isDataLoading v; phase := phase v;
     next_request := next_request v; in_flight := in_flight v;
     getData_calls := getData_calls v; toasts := toasts v ++ [msg];
     table := table v |}.

(** The literal passed by [loadAllData]. *)
Definition firstQuery : Query :=
  {| page := 1; limit := 10; sort_by := ""; sort_order := asc;
     search := ""; filters := [] |}.

(** [datasetAPI.getData(id, query)] leaves; the call is numbered so that
    its answer can be told apart. *)
Definition getData (query : Query) (v : View) : View :=
  {| id := id v; left := left v; dataset := dataset v; stats := stats v;
     data := data v; activeTab := activeTab v; isLoading := isLoading v;
     isDataLoading := isDataLoading v; phase := phase v;
     next_request := S (next_request v);
     in_flight := in_flight v ++ [(next_request v, query)];
     getData_calls := getData_calls v ++ [(id v, query)];
     toasts := toasts v; table := table v |}.

(** [loadData] up to its [await]. *)
Definition loadData (query : Query) (v : View) : View :=
  if negb (truthy (id v)) then v
  else getData query (set_isDataLoading true v).

Definition lookup_request (n : nat) (l : list (nat * Query)) : option Query :=
  snd <$> find (λ p, bool_decide (fst p = n)) l.

(** [loadData] from the [await] on: show the result or report the
    failure, then the [finally].  When the call is the one [loadAllData]
    awaits, [loadAllData] finishes in the same turn. *)
Definition loadData_settle (n : nat) (r : Response PageResult) (v : View)
    : View :=
  match lookup_request n (in_flight v) with
  | None => v
  | Some _ =>
      let v :=
        match r with
        | Resolved result => set_data (Some result) v
        | Rejected e => add_toast (message_of e "Failed to load data") v
        end in
      let v := set_isDataLoading false v in
      let v :=
        {| id := id v; left := left v; dataset := dataset v; stats := stats v;
           data := data v; activeTab := activeTab v; isLoading := isLoading v;
           isDataLoading := isDataLoading v; phase := phase v;
           next_request := next_request v;
           in_flight := filter (λ p, fst p ≠ n) (in_flight v);
           getData_calls := getData_calls v; toasts := toasts v;
           table := table v |} in
      match phase v with
      | AwaitingData m =>
          if bool_decide (m = n)
          then set_phase Finished (set_isLoading false v)
          else v
      | _ => v
      end
  end.

(** [loadAllData] after [Promise.all]: its own [loadData] call. *)
Definition loadAllData_continue (v : View) : View :=
  match phase v with
  | AwaitingMeta false false =>
      loadData firstQuery (set_phase (AwaitingData (next_request v)) v)
  | _ => v
  end.

(** [loadDataset] from its [await] on. *)
Definition loadDataset_settle (r : Response (list Dataset)) (v : View)
    : View :=
  match phase v with
  | AwaitingMeta true sp =>
      let v := set_phase (AwaitingMeta false sp) v in
      let v :=
        match r with
        | Resolved datasets =>
            match find (λ d, bool_decide (dataset_id d = id v)) datasets with
            | Some currentDataset => set_dataset (Some currentDataset) v
            | None => set_left true (add_toast "Dataset not found" v)
            end
        | Rejected e =>
            set_left true (add_toast (message_of e "Failed to load dataset") v)
        end in
      loadAllData_continue v
  | _ => v
  end.

(** [loadStats] from its [await] on. *)
Definition loadStats_settle (r : Response Stats) (v : View) : View :=
  match phase v with
  | AwaitingMeta dp true =>
      let v := set_phase (AwaitingMeta dp false) v in
      let v :=
        match r with
        | Resolved statsData => set_stats (Some statsData) v
        | Rejected e => add_toast (message_of e "Failed to load stats") v
        end in
      loadAllData_continue v
  | _ => v
  end.

(** First render and the [[id]] effect: with a truthy [id], [loadAllData]
    starts and both metadata calls leave. *)
Definition mount (id : string) : View :=
  {| id := id; left := false; dataset := None; stats := None;
     data := None; activeTab := "overview"; isLoading := true;
     isDataLoading := false;
     phase := if truthy id then AwaitingMeta true true else Idle;
     next_request := 0; in_flight := []; getData_calls := [];
     toasts := []; table := None |}.

(** The tab bar and the tab bodies are rendered once loading is over and
    both the dataset and its stats are there. *)
Definition body_rendered (v : View) : bool :=
  negb (left v) && negb (isLoading v)
  && bool_decide (is_Some (dataset v)) && bool_decide (is_Some (stats v)).

(** [activeTab === 'table' && data && <DataTable ... />] *)
Definition table_rendered (v : View) : bool :=
  body_rendered v && bool_decide (activeTab v = "table")
  && bool_decide (is_Some (data v)).

(** After a commit the child table is mounted or unmounted to match what
    is rendered; unmounting drops its pending timer. *)
Definition reconcile (now : Z) (v : View) : View :=
  match table v, table_rendered v with
  | None, true => set_table (Some (DataTable.mount now)) v
  | Some _, false => set_table None v
  | _, _ => v
  end.

(** A due debounce timer of the child calls [onQueryChange], which is
    [loadData]. *)
Definition run_timers (now : Z) (v : View) : View :=
  match table v with
  | Some tb =>
      let '(tb', out) := DataTable.fire now tb in
      fold_left (λ v c, loadData (snd c) v) out (set_table (Some tb') v)
  | None => v
  end.

(** What can happen to a mounted view: an answer arrives, the user selects
    a tab or acts on the table, or time passes ([Tick]).  Any action is
    accepted on a rendered table; which controls are enabled at the moment
    is not modelled. *)
Inductive Event :=
| DatasetsResponse (r : Response (list Dataset))
| StatsResponse (r : Response Stats)
| DataResponse (n : nat) (r : Response PageResult)
| SelectTab (tab : string)
| TableAction (a : DataTable.Action)
| Tick.

Definition handle (now : Z) (e : Event) (v : View) : View :=
  match e with
  | DatasetsResponse r => loadDataset_settle r v
  | StatsResponse r => loadStats_settle r v
  | DataResponse n r => loadData_settle n r v
  | SelectTab tab => if body_rendered v then set_activeTab tab v else v
  | TableAction a =>
      match table v with
      | Some tb => set_table (Some (DataTable.act now a tb)) v
      | None => v
      end
  | Tick => v
  end.

Definition step (v : View) (te : Z * Event) : View :=
  let '(now, e) := te in
  reconcile now (handle now e (run_timers now v)).

Definition play (evs : list (Z * Event)) (v : View) : View :=
  fold_left step evs v.

(** As long as no [getData] call was made nothing is in flight, no page
    is shown and the table is not rendered; from the first call on, the
    first entry of the call log is the default query for this view. *)
Definition first_fetch_inv (v : View) : Prop :=
  match getData_calls v with
  | [] => in_flight v = [] ∧ data v = None ∧ table v = None
  | c :: _ => c = (id v, firstQuery)
  end.

(** [loadAllData] is waiting for its metadata calls: nothing else has
    happened yet. *)
Definition meta_pending (dp sp : bool) (v : View) : Prop :=
  phase v = AwaitingMeta dp sp ∧ table v = None ∧ isLoading v = true
  ∧ getData_calls v = [].

(** An answer on which the gateway leaves for the login page (see
    [Api.response_error_interceptor]); the page is then replaced, which
    this module does not follow. *)
Definition is_401 {A} (r : Response A) : bool :=
  match r with
  | Resolved _ => false
  | Rejected e => bool_decide (status e = Some 401)
  end.

(** A dataset lookup that fails: the call is rejected, or no dataset of
    the answer has the id of the route. *)
Definition lookup_fails (r : Response (list Dataset)) (i : string) : bool :=
  match r with
  | Resolved datasets =>
      match find (λ d, bool_decide (dataset_id d = i)) datasets with
      | Some _ => false
      | None => true
      end
  | Rejected _ => true
  end.

(** The dataset shown is the one of the route, and so is every page
    fetch. *)
Definition own_dataset_inv (v : View) : Prop :=
  (∀ d, dataset v = Some d → dataset_id d = id v)
  ∧ Forall (λ c, fst c = id v) (getData_calls v).

(** A one-page answer listing the given names. *)
Definition people (names : list string) : PageResult :=
  {| rows := (λ n, {[ "name" := n ]}) <$> names;
     pagination := {| current := 1; pages := 1;
                      total := Z.of_nat (length names) |} |}.

(** A session on dataset "d1".  The page loads and the user opens the
    table tab at 1000.  The table's first notification leaves at 1300
    (call 1, the default query); at 1400 the user types "b" in the search
    box and that notification leaves at 1700 (call 2).  The answer to
    call 2 arrives at 1800, the answer to call 1 at 1900. *)
Definition late_answer_session : list (Z * Event) :=
  [ (10, DatasetsResponse
           (Resolved [ {| dataset_id := "d1"; columns := ["name"] |} ]));
    (20, StatsResponse
           (Resolved {| numeric_columns := [];
                        categorical_columns := ["name"] |}));
    (30, DataResponse 0 (Resolved (people ["ann"; "bob"])));
    (1000, SelectTab "table");
    (1400, TableAction (TypeSearch "b"));
    (1700, Tick);
    (1800, DataResponse 2 (Resolved (people ["bob"])));
    (1900, DataResponse 1 (Resolved (people ["ann"; "bob"]))) ].

End DatasetView.

(** ** DataTable.jsx, [renderPagination]: the footer of the table *)
Module Pager.

Import DataTable DatasetView.

Local Open Scope Z_scope.

(** The footer is rendered for a table that is not loading and shows at
    least one row. *)
Definition rendered (isLoading : bool) (data : PageResult) : bool :=
  negb isLoading && bool_decide (0 < length (rows data))%nat.

(** "Showing [startItem] to [endItem] of [total] results"; the page is the
    one the server reported, the page size the one of the query. *)
Definition startItem (s : State) (pg : Pagination) : Z :=
  (current pg - 1) * limit (query s) + 1.

Definition endItem (s : State) (pg : Pagination) : Z :=
  Z.min (current pg * limit (query s)) (total pg).

Definition prev_disabled (pg : Pagination) : bool :=
  bool_decide (current pg <= 1).

Definition next_disabled (pg : Pagination) : bool :=
  bool_decide (current pg >= pages pg).

(** What a click on each paging button does; a disabled button does
    nothing. *)
Definition clickPrev (pg : Pagination) : option Action :=
  if prev_disabled pg then None else Some (ClickPage (current pg - 1)).

Definition clickNext (pg : Pagination) : option Action :=
  if next_disabled pg then None else Some (ClickPage (current pg + 1)).

End Pager.

(** ** pages/Dashboard.jsx: the list of datasets *)
Module Dashboard.

Import Api.

Local Open Scope Z_scope.

Record Summary := mkSummary {
  summary_id : string;
  name : string;
  row_count : Z;
  columns : list string;
  user_id : string
}.

(** The state cells, the toasts shown and the gateway calls made. *)
Record State := mkState {
  datasets : list Summary;
  isLoading : bool;
  showUpload : bool;
  toasts : list AuthContext.Toast;
  requests : list Config
}.

Definition initialState : State :=
  {| datasets := []; isLoading := true; showUpload := false;
     toasts := []; requests := [] |}.

Definition toast (t : AuthContext.Toast) (s : State) : State :=
  {| datasets := datasets s; isLoading := isLoading s;
     showUpload := showUpload s; toasts := toasts s ++ [t];
     requests := requests s |}.

Definition call (c : Config) (s : State) : State :=
  {| datasets := datasets s; isLoading := isLoading s;
     showUpload := showUpload s; toasts := toasts s;
     requests := requests s ++ [c] |}.

(** [loadDatasets] up to its [await]. *)
Definition loadDatasets (s : State) : State :=
  call (request "GET" "/datasets") s.

(** [loadDatasets] from the [await] on. *)
Definition loadDatasets_settle (r : Response (list Summary)) (s : State)
    : State :=
  let s :=
    match r with
    | Resolved data =>
        {| datasets := data; isLoading := isLoading s;
           showUpload := showUpload s; toasts := toasts s;
           requests := requests s |}
    | Rejected e =>
        toast (AuthContext.error (message_of e "Failed to load datasets")) s
    end in
  {| datasets := datasets s; isLoading := false;
     showUpload := showUpload s; toasts := toasts s;
     requests := requests s |}.

(** First render and the [[]] effect. *)
Definition mount : State := loadDatasets initialState.

Definition handleUploadSuccess (s : State) : State :=
  loadDatasets
    {| datasets := datasets s; isLoading := isLoading s;
       showUpload := false; toasts := toasts s; requests := requests s |}.

(** [handleDeleteDataset] up to its [await]; [confirmed] is the answer to
    [window.confirm]. *)
Definition handleDeleteDataset (confirmed : bool) (dataset : Summary)
    (s : State) : State :=
  if negb confirmed then s
  else call (request "DELETE" ("/datasets/" +:+ summary_id dataset)) s.

(** [handleDeleteDataset] from the [await] on. *)
Definition handleDeleteDataset_settle (r : Response unit) (s : State)
    : State :=
  match r with
  | Resolved _ =>
      loadDatasets
        (toast (AuthContext.success "Dataset deleted successfully") s)
  | Rejected e =>
      toast (AuthContext.error (message_of e "Failed to delete dataset")) s
  end.

(** [setShowUpload]: the two upload buttons pass [true], the close
    button of the panel passes [false]. *)
Definition setShowUpload (v : bool) (s : State) : State :=
  {| datasets := datasets s; isLoading := isLoading s;
     showUpload := v; toasts := toasts s; requests := requests s |}.

Inductive Event :=
| OpenUpload
| CloseUpload
| UploadSucceeded
| Delete (confirmed : bool) (dataset : Summary)
| DeleteSettled (r : Response unit)
| DatasetsSettled (r : Response (list Summary)).

Definition step (s : State) (e : Event) : State :=
  match e with
  | OpenUpload => setShowUpload true s
  | CloseUpload => setShowUpload false s
  | UploadSucceeded => handleUploadSuccess s
  | Delete confirmed dataset => handleDeleteDataset confirmed dataset s
  | DeleteSettled r => handleDeleteDataset_settle r s
  | DatasetsSettled r => loadDatasets_settle r s
  end.

Definition play (evs : list Event) (s : State) : State :=
  fold_left step evs s.

(** The list a fulfilled [getAll] answer among the events delivers last. *)
Definition last_loaded (evs : list Event) (before : list Summary)
    : list Summary :=
  fold_left
    (λ acc e, match e with DatasetsSettled (Resolved data) => data | _ => acc end)
    evs before.

(** The events after which the list is fetched again. *)
Definition reloads (e : Event) : bool :=
  match e with
  | UploadSucceeded | DeleteSettled (Resolved _) => true
  | _ => false
  end.

Definition is_getAll (c : Config) : bool :=
  bool_decide (method c = "GET" ∧ url c = "/datasets").

(** [datasets.reduce((sum, dataset) => sum + dataset.row_count, 0)] *)
Definition totalRows (ds : list Summary) : Z :=
  fold_left (λ sum dataset, sum + row_count dataset) ds 0.

(** [datasets.reduce((sum, dataset) => sum + dataset.columns.length, 0)] *)
Definition totalColumns (ds : list Summary) : Z :=
  fold_left (λ sum dataset, sum + Z.of_nat (length (columns dataset))) ds 0.

End Dashboard.

(** ** components/Dashboard/FileUpload.jsx *)
Module FileUpload.

Import Api.

Local Open Scope Z_scope.

Record File := mkFile {
  file_name : string;
  size : Z
}.

(** No character of the string is a slash or a dot: the class [[^/.]]. *)
Fixpoint no_slash_dot (s : string) : bool :=
  match s with
  | EmptyString => true
  | String c rest =>
      negb (Ascii.eqb c "/"%char) && negb (Ascii.eqb c "."%char)
      && no_slash_dot rest
  end.

(** [name.replace(/\.[^/.]+$/, '')]: scanning from the left, the first
    position where a dot is followed by one or more characters of the class
    up to the end of the string is where the string is cut. *)
Fixpoint strip_extension (s : string) : string :=
  match s with
  | EmptyString => EmptyString
  | String c rest =>
      if Ascii.eqb c "."%char && truthy rest && no_slash_dot rest
      then EmptyString
      else String c (strip_extension rest)
  end.

Section Component.

(** [String.prototype.trim]. *)
Variable trim : string → string.

Record State := mkState {
  isUploading : bool;
  upload_name : string;
  description : string;
  selectedFile : option File;
  toasts : list AuthContext.Toast;
  uploads : list (list (string * string));  (* the form data of each call *)
  notified : nat                             (* [onUploadSuccess] calls *)
}.

Definition initialState : State :=
  {| isUploading := false; upload_name := ""; description := "";
     selectedFile := None; toasts := []; uploads := []; notified := 0 |}.

(** [onDrop]: the first accepted file is selected; its name without the
    extension becomes the dataset name when none was entered yet. *)
Definition onDrop (acceptedFiles : list File) (s : State) : State :=
  match acceptedFiles with
  | file :: _ =>
      {| isUploading := isUploading s;
         upload_name :=
           if negb (truthy (upload_name s))
           then strip_extension (file_name file) else upload_name s;
         description := description s;
         selectedFile := Some file;
         toasts := toasts s; uploads := uploads s; notified := notified s |}
  | [] => s
  end.

Definition removeFile (s : State) : State :=
  {| isUploading := isUploading s; upload_name := upload_name s;
     description := description s; selectedFile := None;
     toasts := toasts s; uploads := uploads s; notified := notified s |}.

(** [datasetAPI.upload]: the fields appended to the form data. *)
Definition formData (file : File) (name description : string)
    : list (string * string) :=
  [("file", file_name file); ("name", name)]
  ++ (if truthy description then [("description", description)] else []).

(** The guard of [handleUpload]: an error toast and nothing else. *)
Definition refuse (s : State) : State :=
  {| isUploading := isUploading s; upload_name := upload_name s;
     description := description s; selectedFile := selectedFile s;
     toasts := toasts s ++
       [AuthContext.error "Please select a file and provide a name"];
     uploads := uploads s; notified := notified s |}.

(** [handleUpload] up to its [await]. *)
Definition handleUpload (s : State) : State :=
  match selectedFile s with
  | None => refuse s
  | Some file =>
      if negb (truthy (trim (upload_name s))) then refuse s
      else
        {| isUploading := true; upload_name := upload_name s;
           description := description s; selectedFile := selectedFile s;
           toasts := toasts s;
           uploads := uploads s
             ++ [formData file (upload_name s) (description s)];
           notified := notified s |}
  end.

(** [handleUpload] from the [await] on. *)
Definition handleUpload_settle (r : Response unit) (s : State) : State :=
  match r with
  | Resolved _ =>
      {| isUploading := false; upload_name := ""; description := "";
         selectedFile := None;
         toasts := toasts s
           ++ [AuthContext.success "Dataset uploaded successfully!"];
         uploads := uploads s; notified := S (notified s) |}
  | Rejected e =>
      {| isUploading := false; upload_name := upload_name s;
         description := description s; selectedFile := selectedFile s;
         toasts := toasts s
           ++ [AuthContext.error (message_of e "Upload failed")];
         uploads := uploads s; notified := notified s |}
  end.

End Component.

End FileUpload.

(** * Properties *)

Lemma truthy_true (s : string) : truthy s = true ↔ s ≠ "".
Proof. destruct s; simpl; split; congruence. Qed.

Lemma truthy_false (s : string) : truthy s = false ↔ s = "".
Proof. destruct s; simpl; split; congruence. Qed.

(** ** The query state model *)
Section QueryModel.

Import DataTable.
Local Open Scope Z_scope.

Lemma run_snoc (pre : list Action) (a : Action) (s : State) :
  run (pre ++ [a]) s = handle a (run pre s).
Proof. unfold run. by rewrite fold_left_app. Qed.

Lemma addFilter_rejected (s : State) :
  filterColumn s = "" ∨ filterValue s = "" → addFilter s = [].
Proof.
  intros H. unfold addFilter.
  destruct H as [H|H]; rewrite H; simpl; [done|].
  by rewrite orb_true_r.
Qed.

Lemma addFilter_accepted (s : State) :
  filterColumn s ≠ "" → filterValue s ≠ "" →
  handle ClickAddFilter s =
    {| query :=
         {| page := 1; limit := limit (query s);
            sort_by := sort_by (query s);
            sort_order := sort_order (query s);
            search := search (query s);
            filters := filters (query s) ++ [draft s] |};
       showFilters := showFilters s;
       filterColumn := "";
       filterOperator := filterOperator s;
       filterValue := "" |}.
Proof.
  intros Hc Hv. unfold handle, updates_of, addFilter.
  apply truthy_true in Hc, Hv. by rewrite Hc, Hv.
Qed.

(** Removing by index with [filter] is deletion at that index; an index
    past the end removes nothing. *)
Lemma filter_index_ne_delete {A} (l : list A) (from index : nat) :
  filter_index_ne from index l =
    if bool_decide (from ≤ index)%nat then delete (index - from)%nat l else l.
Proof.
  revert from. induction l as [|x l IH]; intros from; simpl.
  - by case_bool_decide.
  - rewrite IH. repeat case_bool_decide; try lia.
    + by replace (index - from)%nat with (S (index - S from)) by lia.
    + done.
    + by replace (index - from)%nat with 0%nat by lia.
Qed.

Lemma removeFilter_delete (index : nat) (s : State) :
  filters (query (handle (ClickRemoveFilter index) s))
  = delete index (filters (query s)).
Proof.
  simpl. rewrite filter_index_ne_delete.
  rewrite bool_decide_eq_true_2 by lia. by rewrite Nat.sub_0_r.
Qed.

(** C1. After any sequence of actions from any state, a sort, a search,
    a page-size change, an accepted [addFilter] or a [removeFilter]
    leaves [page = 1]; a page change to [n] leaves [page = n] and is the
    one mutation that does not force 1.  A rejected [addFilter] and the
    edits of the filter form do not touch the query at all. *)
Theorem page_after_each_mutation (s : State) (pre : list Action)
    (a : Action) :
  let before := run pre s in
  let after := run (pre ++ [a]) s in
  match a with
  | ClickSort _ | TypeSearch _ | SelectLimit _ | ClickRemoveFilter _ =>
      page (query after) = 1
  | ClickAddFilter =>
      if truthy (filterColumn before) && truthy (filterValue before)
      then page (query after) = 1
      else query after = query before
  | ClickPage n => page (query after) = n
  | ClickFilters | SelectFilterColumn _ | SelectFilterOperator _
  | TypeFilterValue _ => query after = query before
  end.
Proof.
  intros before after. subst after. rewrite run_snoc. fold before.
  destruct a; try reflexivity.
  unfold handle, updates_of, addFilter.
  destruct (truthy (filterColumn before)), (truthy (filterValue before));
    reflexivity.
Qed.

(** C8. A page change sets [page] to the number it is given, whatever
    the number, and keeps every other field of the query (and the rest of
    the component state). *)
Theorem handlePageChange_frame (s : State) (n : Z) :
  let after := handle (ClickPage n) s in
  page (query after) = n
  ∧ limit (query after) = limit (query s)
  ∧ sort_by (query after) = sort_by (query s)
  ∧ sort_order (query after) = sort_order (query s)
  ∧ search (query after) = search (query s)
  ∧ filters (query after) = filters (query s)
  ∧ showFilters after = showFilters s
  ∧ draft after = draft s.
Proof. repeat split. Qed.

(** No clamping: a page below 1 or beyond any page count is stored. *)
Example handlePageChange_unclamped :
  page (query (handle (ClickPage (-3)) initialState)) = -3
  ∧ page (query (handle (ClickPage 1000000) initialState)) = 1000000.
Proof. split; reflexivity. Qed.

(** C4. Sorting by the column already sorted by toggles the order;
    sorting by another column selects it in ascending order; the page
    becomes 1 either way.  So three clicks on one column, from a state
    sorted by no column, give ascending, descending, ascending. *)
Theorem handleSort_toggle (s : State) (column : string) :
  let q1 := query (handle (ClickSort column) s) in
  let q2 := query (run [ClickSort column; ClickSort column] s) in
  let q3 := query (run [ClickSort column; ClickSort column;
                        ClickSort column] s) in
  (sort_by (query s) = column →
     sort_by q1 = column ∧ sort_order q1 = toggle (sort_order (query s))
     ∧ page q1 = 1)
  ∧ (sort_by (query s) ≠ column →
     sort_by q1 = column ∧ sort_order q1 = asc ∧ page q1 = 1)
  ∧ (sort_by (query s) = "" → column ≠ "" →
     sort_order q1 = asc ∧ sort_order q2 = desc ∧ sort_order q3 = asc
     ∧ sort_by q3 = column).
Proof.
  simpl. split; [|split].
  - intros ->. rewrite bool_decide_eq_true_2 by done.
    by destruct (sort_order (query s)).
  - intros Hne. by rewrite bool_decide_eq_false_2.
  - intros He Hc. rewrite He.
    rewrite (bool_decide_eq_false_2 ("" = column)) by congruence.
    rewrite !(bool_decide_eq_true_2 (column = column)) by done.
    done.
Qed.

Lemma handleSort_toggle_witness :
  let s := handle (ClickSort "name") initialState in
  sort_order (query (handle (ClickSort "name") s)) = desc
  ∧ sort_order (query (handle (ClickSort "age") s)) = asc
  ∧ sort_order (query (run [ClickSort "name"; ClickSort "name";
                            ClickSort "name"] initialState)) = asc.
Proof.
  intros s. split; [|split].
  - apply (proj1 (handleSort_toggle s "name") eq_refl).
  - apply (proj1 (proj2 (handleSort_toggle s "age"))). by compute.
  - apply (proj2 (proj2 (handleSort_toggle initialState "name")));
      [reflexivity | by compute].
Defined.

(** A column whose name is the empty string cannot be told from "no
    column": the first click finds it selected already. *)
Example handleSort_empty_name :
  sort_order (query (handle (ClickSort "") initialState)) = desc.
Proof. reflexivity. Qed.

(** The other fields of the query are kept by a sort. *)
Lemma handleSort_frame (s : State) (column : string) :
  let q1 := query (handle (ClickSort column) s) in
  limit q1 = limit (query s) ∧ search q1 = search (query s)
  ∧ filters q1 = filters (query s).
Proof. repeat split. Qed.

(** C5, as the code has it.  With an empty column or an empty value in
    the draft, [addFilter] changes nothing; otherwise the draft is
    appended as the last filter, the page becomes 1, the rest of the
    query is kept, and the column and value of the draft are emptied
    while its operator keeps the value last selected. *)
Theorem addFilter_contract (s : State) :
  let after := handle ClickAddFilter s in
  (column (draft s) = "" ∨ value (draft s) = "" → after = s)
  ∧ (column (draft s) ≠ "" → value (draft s) ≠ "" →
     filters (query after) = filters (query s) ++ [draft s]
     ∧ page (query after) = 1
     ∧ limit (query after) = limit (query s)
     ∧ sort_by (query after) = sort_by (query s)
     ∧ sort_order (query after) = sort_order (query s)
     ∧ search (query after) = search (query s)
     ∧ filterColumn after = "" ∧ filterValue after = ""
     ∧ filterOperator after = filterOperator s).
Proof.
  simpl. split.
  - intros H. unfold handle, updates_of. by rewrite addFilter_rejected.
  - intros Hc Hv. by rewrite addFilter_accepted.
Qed.

Lemma addFilter_contract_witness :
  let s := run [SelectFilterColumn "age"; SelectFilterOperator "gt";
                TypeFilterValue "30"] initialState in
  handle ClickAddFilter initialState = initialState
  ∧ filters (query (handle ClickAddFilter s)) =
      [ {| column := "age"; operator := "gt"; value := "30" |} ]
  ∧ page (query (handle ClickAddFilter s)) = 1
  ∧ filterOperator (handle ClickAddFilter s) = filterOperator s.
Proof.
  intros s. split; [|split; [|split]].
  - apply (proj1 (addFilter_contract initialState)). by left.
  - apply (proj2 (addFilter_contract s)); by compute.
  - apply (proj2 (addFilter_contract s)); by compute.
  - apply (proj2 (addFilter_contract s)); by compute.
Defined.

(** The operator of the draft is not part of the reset, whether the
    draft is accepted or not. *)
Lemma addFilter_keeps_operator (s : State) :
  filterOperator (handle ClickAddFilter s) = filterOperator s.
Proof.
  unfold handle, updates_of, addFilter.
  by destruct (truthy (filterColumn s)), (truthy (filterValue s)).
Qed.

(** C5 as claimed fails: after the draft (age, gt, 30) is added, the
    draft is not cleared: its operator is still gt, neither empty nor
    the operator the form starts with. *)
Lemma addFilter_operator_not_cleared :
  let s := run [SelectFilterColumn "age"; SelectFilterOperator "gt";
                TypeFilterValue "30"] initialState in
  let after := handle ClickAddFilter s in
  filters (query after) =
    [ {| column := "age"; operator := "gt"; value := "30" |} ]
  ∧ draft after = {| column := ""; operator := "gt"; value := "" |}
  ∧ operator (draft after) ≠ ""
  ∧ operator (draft after) ≠ operator (draft initialState)
  ∧ draft after ≠ draft initialState.
Proof.
  intros s after. repeat split; try (vm_compute; reflexivity);
    vm_compute; discriminate.
Qed.

End QueryModel.

(** ** The debounce loop *)
Section Debounce.

Import DataTable.
Local Open Scope Z_scope.

Lemma mutates_false_query (a : Action) (s : State) :
  mutates a s = false → query (handle a s) = query s.
Proof.
  destruct a; try discriminate; try reflexivity.
  unfold mutates, handle, updates_of, addFilter.
  by destruct (truthy (filterColumn s)), (truthy (filterValue s)).
Qed.

Lemma act_pending (now last : Z) (a : Action) (s : State) :
  act now a (pending last s)
  = pending (if mutates a s then now else last) (handle a s).
Proof.
  unfold act, pending. simpl. fold (handle a s). fold (mutates a s).
  destruct (mutates a s) eqn:Hm; [done|].
  by rewrite (mutates_false_query _ _ Hm).
Qed.

Lemma act_mutation (now : Z) (a : Action) (tb : Table) :
  mutates a (comp tb) = true →
  act now a tb = pending now (handle a (comp tb)).
Proof.
  intros Hm. unfold act, pending. fold (handle a (comp tb)).
  fold (mutates a (comp tb)). by rewrite Hm.
Qed.

Lemma fire_pending_early (now last : Z) (s : State) :
  now < last + debounce → fire now (pending last s) = (pending last s, []).
Proof.
  intros H. unfold fire, pending, setTimeout. simpl.
  by rewrite bool_decide_eq_false_2 by lia.
Qed.

Lemma fire_pending_due (now last : Z) (s : State) :
  last + debounce ≤ now →
  fire now (pending last s)
  = ({| comp := s; timer := None |}, [(last + debounce, query s)]).
Proof.
  intros H. unfold fire, pending, setTimeout. simpl.
  by rewrite bool_decide_eq_true_2 by lia.
Qed.

(** Through a burst no timer fires, and the pending timer is always the
    one started by the latest mutation, for the current query. *)
Lemma play_burst (evs : list (Z * Action)) (last : Z) (s : State)
    (log : list (Z * Query)) :
  burst last s evs →
  play (as_events evs) {| table := Some (pending last s); calls := log |}
  = {| table := Some (pending (last_mutation last s evs)
                              (run (map snd evs) s));
       calls := log |}.
Proof.
  revert last s. induction evs as [|[t a] evs IH]; intros last s Hb.
  - done.
  - destruct Hb as (Hle & Hlt & Hb). simpl.
    unfold tick. simpl. rewrite fire_pending_early by done. simpl.
    rewrite app_nil_r, act_pending. by apply IH.
Qed.

Lemma tick_unmounted (now : Z) (log : list (Z * Query)) :
  tick now {| table := None; calls := log |}
  = {| table := None; calls := log |}.
Proof. done. Qed.

(** Without a mount, an unmounted table stays silent. *)
Lemma play_unmounted (evs : list (Z * Event)) (log : list (Z * Query)) :
  Forall (λ te, snd te ≠ Mount) evs →
  play evs {| table := None; calls := log |}
  = {| table := None; calls := log |}.
Proof.
  induction 1 as [|[t e] evs He _ IH]; [done|].
  simpl in *. destruct e; try done; by rewrite ?tick_unmounted.
Qed.

(** C2. A burst of mutations, each less than 300 time units after the
    one before, makes exactly one [onQueryChange] call once the window
    has passed after the last of them, and the call carries the query as
    the last mutation left it; the log of calls grows by that single
    entry, so no intermediate query is ever sent.  After an unmount, the
    pending timer is gone: whatever happens later (short of a new
    mount), the log stays as it was at the unmount. *)
Theorem debounce_single_call :
  (∀ (w : World) (tb : Table) (t1 : Z) (a1 : Action)
     (rest : list (Z * Action)) (T : Z),
     table (tick t1 w) = Some tb →
     mutates a1 (comp tb) = true →
     burst t1 (handle a1 (comp tb)) rest →
     let final := run (a1 :: map snd rest) (comp tb) in
     let tk := last_mutation t1 (handle a1 (comp tb)) rest in
     tk + debounce ≤ T →
     calls (tick T (play (as_events ((t1, a1) :: rest)) w))
     = calls (tick t1 w) ++ [(tk + debounce, query final)])
  ∧ (∀ (w : World) (t T : Z) (later : list (Z * Event)),
     Forall (λ te, snd te ≠ Mount) later →
     calls (tick T (play later (step w (t, Unmount)))) = calls (tick t w)).
Proof.
  split.
  - intros w tb t1 a1 rest T Htb Hm Hb final tk HT.
    unfold as_events, play. simpl. fold (play (as_events rest)).
    rewrite Htb, (act_mutation _ _ _ Hm), (play_burst _ _ _ _ Hb).
    unfold tick. simpl.
    by rewrite fire_pending_due by done.
  - intros w t T later Hl. simpl.
    by rewrite (play_unmounted _ _ Hl).
Qed.

Lemma debounce_single_call_witness :
  let typing := [(100, TypeSearch "a"); (250, TypeSearch "ab");
                 (400, SelectFilterColumn "age"); (500, TypeSearch "abc")] in
  let w := play [(0, Mount)] {| table := None; calls := [] |} in
  calls (tick 1000 (play (as_events typing) w))
  = [(800, {| page := 1; limit := 10; sort_by := ""; sort_order := asc;
              search := "abc"; filters := [] |})]
  ∧ calls (tick 1000 (play [(700, Do (TypeSearch "abcd"))]
                        (step (play (as_events typing) w) (600, Unmount))))
    = [].
Proof.
  intros typing w. split.
  - apply (proj1 debounce_single_call w (mount 0) 100 (TypeSearch "a")
             (tail typing) 1000).
    + reflexivity.
    + reflexivity.
    + simpl. unfold debounce. lia.
    + simpl. unfold debounce. lia.
  - apply (proj2 debounce_single_call (play (as_events typing) w) 600 1000
             [(700, Do (TypeSearch "abcd"))]).
    repeat constructor. discriminate.
Defined.

End Debounce.

(** ** The dataset page: first fetch and arrival order of answers *)
Section Page.

Import Api DataTable DatasetView.
Local Open Scope Z_scope.

Lemma loadData_inv (q : Query) (v : View) :
  first_fetch_inv v → (getData_calls v = [] → q = firstQuery) →
  first_fetch_inv (loadData q v).
Proof.
  unfold first_fetch_inv, loadData, getData.
  destruct (truthy (id v)); simpl; [|done].
  destruct (getData_calls v) eqn:Hc; simpl; [|done].
  intros _ ->; done.
Qed.

Lemma run_timers_inv (now : Z) (v : View) :
  first_fetch_inv v → first_fetch_inv (run_timers now v).
Proof.
  intros Hinv. unfold run_timers.
  destruct (table v) as [tb|] eqn:Htb; [|done].
  assert (Hne : getData_calls v ≠ []).
  { intros Hc. unfold first_fetch_inv in Hinv. rewrite Hc in Hinv.
    destruct Hinv as (_ & _ & ?). congruence. }
  assert (Hset : ∀ x, first_fetch_inv (set_table (Some x) v)).
  { intros x. unfold first_fetch_inv in *. simpl.
    by destruct (getData_calls v). }
  unfold fire. destruct (timer tb) as [[due q]|]; [|apply Hset].
  case_bool_decide; simpl; [|apply Hset].
  apply loadData_inv; [apply Hset|done].
Qed.

Lemma loadData_settle_calls (n : nat) (r : Response PageResult) (v : View) :
  getData_calls (loadData_settle n r v) = getData_calls v.
Proof. unfold loadData_settle. by repeat (case_match; simpl). Qed.

Lemma loadData_settle_id (n : nat) (r : Response PageResult) (v : View) :
  id (loadData_settle n r v) = id v.
Proof. unfold loadData_settle. by repeat (case_match; simpl). Qed.

Lemma handle_inv (now : Z) (e : Event) (v : View) :
  first_fetch_inv v → first_fetch_inv (handle now e v).
Proof.
  intros Hinv. destruct e; simpl.
  - unfold loadDataset_settle, loadAllData_continue.
    repeat (case_match; simpl; try done);
      (apply loadData_inv; [exact Hinv|done]).
  - unfold loadStats_settle, loadAllData_continue.
    repeat (case_match; simpl; try done);
      (apply loadData_inv; [exact Hinv|done]).
  - unfold first_fetch_inv in *.
    rewrite loadData_settle_calls, loadData_settle_id.
    destruct (getData_calls v); [|done].
    destruct Hinv as (Hf & Hd & Ht).
    unfold loadData_settle. by rewrite Hf.
  - case_match; [|done]. exact Hinv.
  - case_match; [|done]. unfold first_fetch_inv in *. simpl.
    destruct (getData_calls v); [|done].
    destruct Hinv as (_ & _ & ?). congruence.
  - exact Hinv.
Qed.

Lemma reconcile_inv (now : Z) (v : View) :
  first_fetch_inv v → first_fetch_inv (reconcile now v).
Proof.
  intros Hinv. unfold reconcile.
  destruct (table v) eqn:Ht, (table_rendered v) eqn:Hr; try done.
  - unfold first_fetch_inv in *. simpl.
    destruct (getData_calls v); [|done].
    destruct Hinv as (_ & _ & ?). congruence.
  - unfold first_fetch_inv in *. simpl.
    destruct (getData_calls v); [|done].
    destruct Hinv as (_ & Hd & _).
    unfold table_rendered in Hr. rewrite Hd in Hr.
    change (bool_decide (is_Some (@None PageResult))) with false in Hr.
    by rewrite andb_false_r in Hr.
Qed.

Lemma step_inv (v : View) (te : Z * Event) :
  first_fetch_inv v → first_fetch_inv (step v te).
Proof.
  destruct te as [now e]. intros Hinv. unfold step.
  by apply reconcile_inv, handle_inv, run_timers_inv.
Qed.

Lemma play_inv (evs : list (Z * Event)) (v : View) :
  first_fetch_inv v → first_fetch_inv (play evs v).
Proof.
  revert v. induction evs as [|te evs IH]; intros v Hinv; [done|].
  simpl. by apply IH, step_inv.
Qed.

Lemma mount_inv (i : string) : first_fetch_inv (mount i).
Proof. done. Qed.

(** The route parameter is fixed for the life of the view. *)
Lemma loadData_id (q : Query) (v : View) : id (loadData q v) = id v.
Proof. unfold loadData. by destruct (truthy (id v)). Qed.

Lemma run_timers_id (now : Z) (v : View) : id (run_timers now v) = id v.
Proof.
  unfold run_timers, fire.
  repeat (case_match; simplify_eq; simpl; try done).
  by rewrite loadData_id.
Qed.

Lemma handle_id (now : Z) (e : Event) (v : View) :
  id (handle now e v) = id v.
Proof.
  destruct e; simpl; rewrite ?loadData_settle_id; try done.
  - unfold loadDataset_settle, loadAllData_continue.
    repeat (case_match; simpl; rewrite ?loadData_id; try done).
  - unfold loadStats_settle, loadAllData_continue.
    repeat (case_match; simpl; rewrite ?loadData_id; try done).
  - by case_match.
  - by case_match.
Qed.

Lemma reconcile_id (now : Z) (v : View) : id (reconcile now v) = id v.
Proof. unfold reconcile. by repeat case_match. Qed.

Lemma step_id (v : View) (te : Z * Event) : id (step v te) = id v.
Proof.
  destruct te as [now e]. unfold step.
  by rewrite reconcile_id, handle_id, run_timers_id.
Qed.

Lemma play_id (evs : list (Z * Event)) (v : View) : id (play evs v) = id v.
Proof.
  revert v. induction evs as [|te evs IH]; intros v; [done|].
  simpl. by rewrite IH, step_id.
Qed.



(** *** Answers are shown in arrival order *)

Lemma lookup_request_app (n : nat) (l l' : list (nat * Query)) (q : Query) :
  lookup_request n l = Some q → lookup_request n (l ++ l') = Some q.
Proof.
  unfold lookup_request. induction l as [|[m p] l IH]; simpl; [done|].
  by case_bool_decide.
Qed.

Lemma lookup_request_filter (n m : nat) (l : list (nat * Query)) :
  n ≠ m →
  lookup_request n (filter (λ p, fst p ≠ m) l) = lookup_request n l.
Proof.
  intros Hne. unfold lookup_request.
  induction l as [|[k p] l IH]; simpl; [done|].
  rewrite filter_cons. simpl.
  destruct (decide (k ≠ m)) as [Hk|Hk]; simpl.
  - by case_bool_decide.
  - rewrite bool_decide_eq_false_2 by (intros ->; apply Hk; intros ->; done).
    exact IH.
Qed.

Lemma loadData_in_flight (n : nat) (q q' : Query) (v : View) :
  lookup_request n (in_flight v) = Some q →
  lookup_request n (in_flight (loadData q' v)) = Some q.
Proof.
  intros H. unfold loadData. destruct (truthy (id v)); simpl; [|done].
  by apply lookup_request_app.
Qed.

Lemma run_timers_in_flight (now : Z) (n : nat) (q : Query) (v : View) :
  lookup_request n (in_flight v) = Some q →
  lookup_request n (in_flight (run_timers now v)) = Some q.
Proof.
  intros H. unfold run_timers, fire.
  repeat (case_match; simplify_eq; simpl; try done).
  by apply loadData_in_flight.
Qed.

Lemma reconcile_in_flight (now : Z) (v : View) :
  in_flight (reconcile now v) = in_flight v.
Proof. unfold reconcile. by repeat case_match. Qed.

Lemma reconcile_data (now : Z) (v : View) :
  data (reconcile now v) = data v.
Proof. unfold reconcile. by repeat case_match. Qed.

Lemma loadData_settle_other (n m : nat) (q : Query)
    (r : Response PageResult) (v : View) :
  n ≠ m → lookup_request n (in_flight v) = Some q →
  lookup_request n (in_flight (loadData_settle m r v)) = Some q.
Proof.
  intros Hne H. unfold loadData_settle.
  repeat (case_match; simpl; try done);
    by rewrite lookup_request_filter.
Qed.

Lemma loadData_settle_resolved (n : nat) (q : Query) (result : PageResult)
    (v : View) :
  lookup_request n (in_flight v) = Some q →
  data (loadData_settle n (Resolved result) v) = Some result.
Proof.
  intros H. unfold loadData_settle. rewrite H.
  by repeat (case_match; simpl).
Qed.

(** An answer to another call leaves a call in flight. *)
Lemma step_keeps_in_flight (now : Z) (n m : nat) (q : Query)
    (r : Response PageResult) (v : View) :
  n ≠ m → lookup_request n (in_flight v) = Some q →
  lookup_request n (in_flight (step v (now, DataResponse m r))) = Some q.
Proof.
  intros Hne H. unfold step. rewrite reconcile_in_flight. simpl.
  by apply loadData_settle_other, run_timers_in_flight.
Qed.

(** A fulfilled answer to a call in flight is displayed. *)
Lemma step_shows_result (now : Z) (n : nat) (q : Query)
    (result : PageResult) (v : View) :
  lookup_request n (in_flight v) = Some q →
  data (step v (now, DataResponse n (Resolved result))) = Some result.
Proof.
  intros H. unfold step. rewrite reconcile_data. simpl.
  by eapply loadData_settle_resolved, run_timers_in_flight.
Qed.

(** C3, as the code has it.  [loadData] shows every fulfilled answer when
    it arrives, whatever was issued since.  With call A issued before
    call B and both in flight, when B's answer arrives first and A's
    second, the page shown after both is A's: the answer that arrived
    last, not the answer to the call issued last. *)
Theorem last_resolved_wins (v : View) (nA nB : nat) (qA qB : Query)
    (rA rB : PageResult) (tB tA : Z) :
  lookup_request nA (in_flight v) = Some qA →
  lookup_request nB (in_flight v) = Some qB →
  (nA < nB)%nat →
  data (play [(tB, DataResponse nB (Resolved rB));
              (tA, DataResponse nA (Resolved rA))] v) = Some rA.
Proof.
  intros HA HB Hlt. unfold play, fold_left.
  eapply step_shows_result, step_keeps_in_flight; [lia|done].
Qed.

Lemma last_resolved_wins_witness :
  let v := play (take 6 late_answer_session) (mount "d1") in
  data (play [(1800, DataResponse 2 (Resolved (people ["bob"])));
              (1900, DataResponse 1 (Resolved (people ["ann"; "bob"])))] v)
  = Some (people ["ann"; "bob"]).
Proof.
  intros v.
  apply (last_resolved_wins v 1 2
           {| page := 1; limit := 10; sort_by := ""; sort_order := asc;
              search := ""; filters := [] |}
           {| page := 1; limit := 10; sort_by := ""; sort_order := asc;
              search := "b"; filters := [] |}).
  - vm_compute. reflexivity.
  - vm_compute. reflexivity.
  - lia.
Defined.

(** C3 as claimed fails: call 2 (search "b") was issued after call 1 (no
    search) and answered before it; when both answers are in, the search
    box holds "b" and the rows shown are the answer to call 1. *)
Lemma stale_answer_shown :
  let v := play late_answer_session (mount "d1") in
  getData_calls v
    = [ ("d1", firstQuery); ("d1", initialQuery);
        ("d1", {| page := 1; limit := 10; sort_by := ""; sort_order := asc;
                  search := "b"; filters := [] |}) ]
  ∧ in_flight v = []
  ∧ (query ∘ comp) <$> table v
    = Some {| page := 1; limit := 10; sort_by := ""; sort_order := asc;
              search := "b"; filters := [] |}
  ∧ data v = Some (people ["ann"; "bob"])
  ∧ data v ≠ Some (people ["bob"]).
Proof.
  intros v. repeat split; try (vm_compute; reflexivity).
  intros H.
  apply (f_equal (fmap (λ r, total (pagination r)))) in H.
  vm_compute in H. discriminate H.
Qed.

(** *** The defaults *)

Lemma step_while_loading (now : Z) (e : Event) (v : View) :
  table v = None →
  isLoading (handle now e v) = true → table (handle now e v) = None →
  step v (now, e) = handle now e v.
Proof.
  intros Ht Hl Ht'. unfold step, run_timers. rewrite Ht.
  unfold reconcile, table_rendered, body_rendered. rewrite Ht', Hl.
  by rewrite andb_false_r.
Qed.

Lemma step_datasets_response (now : Z) (r : Response (list Dataset))
    (sp : bool) (v : View) :
  meta_pending true sp v →
  let v' := step v (now, DatasetsResponse r) in
  (sp = true → meta_pending false true v')
  ∧ (sp = false →
     getData_calls v' = if truthy (id v) then [(id v, firstQuery)] else []).
Proof.
  intros (Hp & Ht & Hl & Hc) v'. subst v'.
  assert (Hh : ∀ w, w = handle now (DatasetsResponse r) v →
            isLoading w = true ∧ table w = None
            ∧ (sp = true → meta_pending false true w)
            ∧ (sp = false → getData_calls w =
                 if truthy (id v) then [(id v, firstQuery)] else [])).
  { intros w ->. simpl. unfold loadDataset_settle, loadAllData_continue,
      meta_pending, loadData.
    rewrite Hp. destruct sp, r as [ds|e]; simpl;
      repeat (case_match; simpl; rewrite ?Hc; try done). }
  destruct (Hh _ eq_refl) as (Hl' & Ht' & H1 & H2).
  rewrite step_while_loading by done. by split.
Qed.

Lemma step_stats_response (now : Z) (r : Response Stats)
    (dp : bool) (v : View) :
  meta_pending dp true v →
  let v' := step v (now, StatsResponse r) in
  (dp = true → meta_pending true false v')
  ∧ (dp = false →
     getData_calls v' = if truthy (id v) then [(id v, firstQuery)] else []).
Proof.
  intros (Hp & Ht & Hl & Hc) v'. subst v'.
  assert (Hh : ∀ w, w = handle now (StatsResponse r) v →
            isLoading w = true ∧ table w = None
            ∧ (dp = true → meta_pending true false w)
            ∧ (dp = false → getData_calls w =
                 if truthy (id v) then [(id v, firstQuery)] else [])).
  { intros w ->. simpl. unfold loadStats_settle, loadAllData_continue,
      meta_pending, loadData.
    rewrite Hp. destruct dp, r as [st|e]; simpl;
      repeat (case_match; simpl; rewrite ?Hc; try done). }
  destruct (Hh _ eq_refl) as (Hl' & Ht' & H1 & H2).
  rewrite step_while_loading by done. by split.
Qed.

(** C10. A table is mounted with the default query, and so is its first
    notification when nothing was touched; [loadAllData] passes the same
    value.  For a view on dataset [i], whatever happens, the first
    [getData] call ever made carries the default query; and it is made
    as soon as the two metadata calls have settled, in either order
    (answers that make the gateway leave for the login page apart). *)
Theorem first_fetch_defaults :
  let defaults :=
    {| page := 1; limit := 10; sort_by := ""; sort_order := asc;
       search := ""; filters := [] |} in
  (∀ now : Z, query (comp (DataTable.mount now)) = defaults)
  ∧ (∀ now T : Z, now + debounce ≤ T →
       snd (fire T (DataTable.mount now)) = [(now + debounce, defaults)])
  ∧ (∀ (i : string) (evs : list (Z * Event)) (c : string * Query),
       head (getData_calls (play evs (mount i))) = Some c →
       c = (i, defaults))
  ∧ (∀ (i : string) (t1 t2 : Z) (r1 : Response (list Dataset))
       (r2 : Response Stats),
       i ≠ "" → is_401 r1 = false → is_401 r2 = false →
       getData_calls (play [(t1, DatasetsResponse r1);
                            (t2, StatsResponse r2)] (mount i))
         = [(i, defaults)]
       ∧ getData_calls (play [(t1, StatsResponse r2);
                              (t2, DatasetsResponse r1)] (mount i))
         = [(i, defaults)]).
Proof.
  cbv zeta. split; [done|]. split; [|split].
  - intros now T HT. unfold fire, DataTable.mount, setTimeout. simpl.
    by rewrite bool_decide_eq_true_2 by done.
  - intros i evs c Hc.
    pose proof (play_inv evs (mount i) (mount_inv i)) as Hinv.
    unfold first_fetch_inv in Hinv. rewrite play_id in Hinv.
    destruct (getData_calls (play evs (mount i))) as [|c' l];
      simpl in Hc; [discriminate|].
    injection Hc as <-. exact Hinv.
  - intros i t1 t2 r1 r2 Hi _ _. apply truthy_true in Hi.
    assert (Hm : meta_pending true true (mount i)).
    { unfold meta_pending, mount. simpl. by rewrite Hi. }
    split; unfold play, fold_left.
    + destruct (step_datasets_response t1 r1 true _ Hm) as (H1 & _).
      destruct (step_stats_response t2 r2 false _ (H1 eq_refl)) as (_ & H2).
      rewrite (H2 eq_refl), step_id. simpl. by rewrite Hi.
    + destruct (step_stats_response t1 r2 true _ Hm) as (H1 & _).
      destruct (step_datasets_response t2 r1 false _ (H1 eq_refl))
        as (_ & H2).
      rewrite (H2 eq_refl), step_id. simpl. by rewrite Hi.
Qed.

Lemma first_fetch_defaults_witness :
  let calls := getData_calls (play late_answer_session (mount "d1")) in
  head calls = Some ("d1", firstQuery)
  ∧ ("d1", firstQuery) = ("d1", initialQuery)
  ∧ snd (fire 300 (DataTable.mount 0)) = [(300, initialQuery)].
Proof.
  intros calls.
  assert (H : head calls = Some ("d1", firstQuery))
    by (vm_compute; reflexivity).
  split; [exact H|]. split.
  - exact (proj1 (proj2 (proj2 first_fetch_defaults)) "d1"
             late_answer_session ("d1", firstQuery) H).
  - apply (proj1 (proj2 first_fetch_defaults) 0 300). unfold debounce. lia.
Defined.

End Page.

(** ** Chart configuration *)
Section Chart.

Import Api ChartContainer.

Lemma issued_app (s s' : State) (l : list (string * gmap string string)) :
  calls s' = calls s ++ l → issued s s' = l.
Proof. intros H. unfold issued. rewrite H. apply drop_app_length. Qed.

Lemma effect_issued (s : State) :
  issued s (effect s)
  = if truthy (x_axis (chartConfig s)) then [(datasetId s, chartConfig s)]
    else [].
Proof.
  unfold effect. destruct (truthy (x_axis (chartConfig s))).
  - by apply issued_app.
  - apply issued_app. by rewrite app_nil_r.
Qed.

Lemma effect_config (s : State) : chartConfig (effect s) = chartConfig s.
Proof. unfold effect. by case_match. Qed.

(** C7, as the code has it.  [handleConfigChange key value] replaces the
    one field and keeps every other; the effect then calls
    [generateChart] at once, with the new configuration, exactly when the
    new configuration has a non-empty [x_axis], and makes no call
    otherwise.  The same holds when the [datasetId] prop changes: one call
    for the new dataset with the current configuration if [x_axis] is
    non-empty, none otherwise. *)
Theorem regenerate_on_change (s : State) (key value id' : string) :
  let s1 := handleConfigChange key value s in
  let s2 := receive_datasetId id' s in
  chartConfig s1 !! key = Some value
  ∧ (∀ k, k ≠ key → chartConfig s1 !! k = chartConfig s !! k)
  ∧ issued s s1
    = (if truthy (x_axis (chartConfig s1))
       then [(datasetId s, chartConfig s1)] else [])
  ∧ (id' ≠ datasetId s →
     chartConfig s2 = chartConfig s
     ∧ issued s s2
       = (if truthy (x_axis (chartConfig s))
          then [(id', chartConfig s)] else [])).
Proof.
  intros s1 s2. subst s1 s2.
  unfold handleConfigChange, receive_datasetId.
  rewrite !effect_config. simpl. unfold set_field.
  split; [apply lookup_insert_eq|].
  split; [intros k Hk; by apply lookup_insert_ne|].
  split.
  - match goal with |- issued s (effect ?s') = _ =>
      change (issued s' (effect s') = if truthy (x_axis (chartConfig s'))
                then [(datasetId s', chartConfig s')] else [])
    end.
    apply effect_issued.
  - intros Hne. rewrite bool_decide_eq_false_2 by done.
    rewrite effect_config. split; [done|].
    match goal with |- issued s (effect ?s') = _ =>
      change (issued s' (effect s') = if truthy (x_axis (chartConfig s'))
                then [(datasetId s', chartConfig s')] else [])
    end.
    apply effect_issued.
Qed.

Lemma regenerate_on_change_witness :
  let s := mount "d1" ["name"; "age"] ["age"] in
  issued s (receive_datasetId "d2" s) = [("d2", chartConfig s)]
  ∧ chartConfig (handleConfigChange "chart_type" "pie" s) !! "x_axis"
    = Some "name".
Proof.
  intros s. split.
  - apply (proj2 (proj2 (proj2 (regenerate_on_change s "" "" "d2")))).
    vm_compute. discriminate.
  - rewrite (proj1 (proj2 (regenerate_on_change s "chart_type" "pie" "")))
      by (vm_compute; discriminate).
    vm_compute. reflexivity.
Defined.

(** C7 as claimed fails: choosing the empty entry of the X-axis selector
    is a field change that issues no regenerate call, and with an empty
    [x_axis] no other field change issues one either. *)
Lemma empty_x_axis_no_regenerate :
  let s := mount "d1" ["name"; "age"] ["age"] in
  let s1 := handleConfigChange "x_axis" "" s in
  let s2 := handleConfigChange "chart_type" "line" s1 in
  length (calls s) = 1 ∧ issued s s1 = [] ∧ issued s1 s2 = []
  ∧ chartConfig s2 !! "chart_type" = Some "line"
  ∧ issued s s1 ≠ [(datasetId s, chartConfig s1)].
Proof.
  intros s s1 s2.
  assert (H1 : issued s s1 = []) by (vm_compute; reflexivity).
  split; [vm_compute; reflexivity|].
  split; [exact H1|].
  split; [vm_compute; reflexivity|].
  split; [vm_compute; reflexivity|].
  rewrite H1. discriminate.
Qed.

(** Chart answers are shown in arrival order too. *)
Lemma chart_last_resolved_wins (s : State) (nA nB : nat)
    (dA dB : ChartData) :
  nA ∈ in_flight s → nB ∈ in_flight s → nA ≠ nB →
  chartData (play [ChartResponse nB (Resolved dB);
                   ChartResponse nA (Resolved dA)] s) = Some dA.
Proof.
  intros HA HB Hne. simpl. unfold generateChart_settle at 1.
  assert (HA' : nA ∈ in_flight (generateChart_settle nB (Resolved dB) s)).
  { unfold generateChart_settle. rewrite bool_decide_eq_true_2 by done.
    simpl. apply list_elem_of_filter. done. }
  by rewrite bool_decide_eq_true_2 by done.
Qed.

End Chart.

(** ** The gateway and the session *)
Section Session.

Import Api AuthContext.
Local Open Scope Z_scope.

Variable User : Type.
Variable full_name : User → string.
Variable JSON_stringify : User → string.
Variable JSON_parse : string → option User.

Abbreviation World := (World User).
Abbreviation Event := (Event User).
Abbreviation step := (step User full_name JSON_stringify JSON_parse).
Abbreviation play := (play User full_name JSON_stringify JSON_parse).
Abbreviation login := (login User full_name JSON_stringify).
Abbreviation register := (register User full_name JSON_stringify).
Abbreviation sent_during :=
  (sent_during User full_name JSON_stringify JSON_parse).

Lemma interceptor_401 (e : Error) (b : Browser) :
  status e = Some 401 → response_error_interceptor e b = cleared b.
Proof.
  intros H. unfold response_error_interceptor.
  by rewrite bool_decide_eq_true_2.
Qed.

Lemma interceptor_other (e : Error) (b : Browser) :
  status e ≠ Some 401 → response_error_interceptor e b = b.
Proof.
  intros H. unfold response_error_interceptor.
  by rewrite bool_decide_eq_false_2.
Qed.

Lemma cleared_no_session (b : Browser) :
  getItem "access_token" (cleared b) = None
  ∧ getItem "user" (cleared b) = None
  ∧ location (cleared b) = "/login".
Proof.
  unfold getItem, cleared. simpl. split; [|split; [|done]].
  - rewrite lookup_delete_ne by done. apply lookup_delete_eq.
  - apply lookup_delete_eq.
Qed.

Lemma request_no_token (b : Browser) (config : Config) :
  getItem "access_token" b = None → request_interceptor b config = config.
Proof. intros H. unfold request_interceptor. by rewrite H. Qed.

Lemma request_with_token (b : Browser) (config : Config) (token : string) :
  getItem "access_token" b = Some token → token ≠ "" →
  bearer (request_interceptor b config) = Some ("Bearer " +:+ token).
Proof.
  intros H Hne. apply truthy_true in Hne.
  unfold request_interceptor, bearer. rewrite H, Hne. simpl.
  apply lookup_insert_eq.
Qed.

Lemma receive_keeps_no_token {A} (r : Response A) (b : Browser) :
  getItem "access_token" b = None →
  getItem "access_token" (receive r b) = None.
Proof.
  intros H. destruct r as [d|e]; simpl; [done|].
  unfold response_error_interceptor. case_bool_decide; [|done].
  unfold getItem. simpl.
  rewrite lookup_delete_ne by done. apply lookup_delete_eq.
Qed.

(** Without a stored token, an event that is not a fulfilled login or
    registration sends its request (if any) without a bearer header and
    leaves the token absent. *)
Lemma stored_session_no_token (w : World) :
  getItem "access_token" (browser w) = None → stored_session w = None.
Proof. intros H. unfold stored_session. by rewrite H. Qed.

Lemma step_no_token (w : World) (e : Event) :
  getItem "access_token" (browser w) = None → signs_in e = false →
  getItem "access_token" (browser (step w e)) = None
  ∧ ∃ l, sent (step w e) = sent w ++ l ∧ Forall (λ c, bearer c = None) l.
Proof.
  intros Hw He.
  assert (Hsend : ∀ c, bearer c = None →
            ∃ l, sent w ++ [request_interceptor (browser w) c] = sent w ++ l
                 ∧ Forall (λ c, bearer c = None) l).
  { intros c Hc. eexists; split; [done|].
    rewrite request_no_token by done. by repeat constructor. }
  assert (Hnone : ∃ l, sent w = sent w ++ l
                       ∧ Forall (λ c, bearer c = None) l).
  { exists []. by rewrite app_nil_r. }
  destruct e as [m u| |r| |r| |r| |r|]; simpl in *.
  - split; [done|]. by apply Hsend.
  - split; [done|]. by apply Hsend.
  - split; [by apply receive_keeps_no_token|done].
  - unfold initAuth_request.
    by rewrite (stored_session_no_token _ Hw).
  - destruct r as [d|e]; simpl; [done|].
    split; [|done].
    unfold getItem. simpl. rewrite lookup_delete_ne by done.
    apply lookup_delete_eq.
  - split; [done|]. by apply Hsend.
  - destruct r as [d|e]; [done|]. simpl.
    split; [by apply (receive_keeps_no_token (Rejected (A:=unit) e))|done].
  - split; [done|]. by apply Hsend.
  - destruct r as [d|e]; [done|]. simpl.
    split; [by apply (receive_keeps_no_token (Rejected (A:=unit) e))|done].
  - split; [|done].
    unfold getItem. simpl. rewrite lookup_delete_ne by done.
    apply lookup_delete_eq.
Qed.

Lemma play_no_token (evs : list Event) (w : World) :
  getItem "access_token" (browser w) = None →
  Forall (λ e, signs_in e = false) evs →
  ∃ l, sent (play evs w) = sent w ++ l ∧ Forall (λ c, bearer c = None) l.
Proof.
  intros Hw Hevs. revert w Hw.
  induction Hevs as [|e evs He _ IH]; intros w Hw.
  - exists []. by rewrite app_nil_r.
  - simpl. destruct (step_no_token w e Hw He) as (Hw' & l1 & Hs1 & Hl1).
    destruct (IH _ Hw') as (l2 & Hs2 & Hl2).
    exists (l1 ++ l2). rewrite Hs2, Hs1, app_assoc.
    split; [done|]. by apply Forall_app.
Qed.

Lemma step_sent (w : World) (e : Event) :
  sent (step w e)
  = sent w ++ map (request_interceptor (browser w)) (outgoing JSON_parse w e).
Proof.
  destruct e as [m u| |r| |r| |r| |r|]; simpl; rewrite ?app_nil_r; try done.
  - unfold initAuth_request.
    destruct (stored_session w) as [savedUser|]; simpl;
      [|by rewrite app_nil_r].
    destruct (JSON_parse savedUser); simpl; [done|by rewrite app_nil_r].
  - by destruct r.
  - by destruct r as [[]|].
  - by destruct r as [[]|].
Qed.

Lemma cleared_idem (b : Browser) :
  removeItem "user" (removeItem "access_token" (cleared b)) = cleared b.
Proof.
  unfold removeItem, cleared. simpl. f_equal.
  rewrite (delete_id _ "access_token")
    by (rewrite lookup_delete_ne by done; apply lookup_delete_eq).
  apply delete_id, lookup_delete_eq.
Qed.

(** A 401 leaves the browser cleared, whichever call it answers. *)
Lemma step_401 (w : World) (e : Event) (err : Error) :
  rejection e = Some err → status err = Some 401 →
  browser (step w e) = cleared (browser w).
Proof.
  intros He Hs.
  destruct e as [m u| |r| |r| |r| |r|]; try discriminate;
    destruct r as [d|e']; try discriminate; simpl in *;
    simplify_eq; rewrite interceptor_401 by done; try done.
  apply cleared_idem.
Qed.

(** C6. Whatever call it answers, a 401 removes both session keys and
    sends the browser to the login page; from then on no request carries
    a bearer header until a login or registration is fulfilled.  While a
    (non-empty) token is stored, every request carries
    [Authorization: Bearer <token>]. *)
Theorem unauthorized_clears_session :
  (∀ (w : World) (e : Event) (err : Error) (later : list Event),
     rejection e = Some err → status err = Some 401 →
     Forall (λ e', signs_in e' = false) later →
     let w' := step w e in
     getItem "access_token" (browser w') = None
     ∧ getItem "user" (browser w') = None
     ∧ location (browser w') = "/login"
     ∧ Forall (λ c, bearer c = None) (sent_during later w'))
  ∧ (∀ (w : World) (e : Event) (token : string),
     getItem "access_token" (browser w) = Some token → token ≠ "" →
     Forall (λ c, bearer c = Some ("Bearer " +:+ token))
            (sent_during [e] w)).
Proof.
  split.
  - intros w e err later He Hs Hl w'. subst w'.
    rewrite (step_401 _ _ _ He Hs).
    destruct (cleared_no_session (browser w)) as (Ht & Hu & Hloc).
    repeat (split; [done|]).
    assert (Hw : getItem "access_token" (browser (step w e)) = None).
    { by rewrite (step_401 _ _ _ He Hs). }
    destruct (play_no_token later _ Hw Hl) as (l & Hsent & Hall).
    unfold AuthContext.sent_during. rewrite Hsent.
    by rewrite drop_app_length.
  - intros w e token Ht Hne.
    unfold AuthContext.sent_during. simpl.
    rewrite step_sent, drop_app_length.
    apply Forall_map, Forall_forall. intros c _. simpl.
    by apply request_with_token.
Qed.

(** [login] and [register] fail in two ways only: the gateway rejected
    the call, or it fulfilled it with a body that has no user (or with
    no body), and a property read threw. *)
Lemma login_failure_cases (r : Response (AuthBody User)) (w : World)
    (t : Thrown) :
  snd (login r w) = inl t ∨ snd (register r w) = inl t →
  (∃ err, r = Rejected err ∧ t = Gateway err)
  ∨ (t = TypeError
     ∧ ∃ body, r = Resolved body ∧ ∀ a, body ≠ with_user a).
Proof.
  intros H. destruct r as [[a|token m|]|err]; simpl in H.
  - by destruct H.
  - right. destruct H; simplify_eq; split; [done| |done|]; by eexists.
  - right. destruct H; simplify_eq; split; [done| |done|]; by eexists.
  - left. destruct H; simplify_eq; by eexists.
Qed.

(** C9, as the code has it.  A [login] or [register] whose gateway call
    is rejected never writes the session: the user in memory is as
    before, the error is shown (the server's detail, else the fixed
    text) and rethrown, and loading ends.  The stored session is exactly
    as before unless the rejection is a 401, which the gateway handles
    as for every call: both keys are removed and the browser is sent to
    the login page. *)
Theorem failed_login_keeps_session (w : World) (err : Error) :
  let w1 := fst (login (Rejected err) w) in
  let w2 := fst (register (Rejected err) w) in
  snd (login (Rejected err) w) = inl (Gateway err)
  ∧ snd (register (Rejected err) w) = inl (Gateway err)
  ∧ user w1 = user w ∧ user w2 = user w
  ∧ toasts w1 = toasts w ++ [error (message_of err "Login failed")]
  ∧ toasts w2 = toasts w ++ [error (message_of err "Registration failed")]
  ∧ isLoading w1 = false ∧ isLoading w2 = false
  ∧ (status err ≠ Some 401 → browser w1 = browser w ∧ browser w2 = browser w)
  ∧ (status err = Some 401 →
     browser w1 = cleared (browser w) ∧ browser w2 = cleared (browser w)).
Proof.
  simpl. repeat (split; [done|]). split.
  - intros H. by rewrite interceptor_other.
  - intros H. by rewrite interceptor_401.
Qed.

End Session.

(** *** Concrete sessions

    A user profile reduced to its name, serialized as the name itself. *)
Section Sessions.

Import Api AuthContext.
Local Open Scope Z_scope.

Lemma unauthorized_clears_session_witness :
  Forall (λ c, bearer c = None)
    (sent_during string id id Some
       [Request "GET" "/datasets"; LoginRequest;
        LoginSettle (Rejected server_error); Upload]
       (step string id id Some signed_in (Answer (Rejected unauthorized))))
  ∧ Forall (λ c, bearer c = Some "Bearer t0")
      (sent_during string id id Some [Request "GET" "/datasets"] signed_in).
Proof.
  split.
  - apply (proj1 (unauthorized_clears_session string id id Some) signed_in
             (Answer (Rejected unauthorized)) unauthorized).
    + reflexivity.
    + reflexivity.
    + repeat constructor.
  - apply (proj2 (unauthorized_clears_session string id id Some) signed_in
             (Request "GET" "/datasets") "t0").
    + vm_compute. reflexivity.
    + discriminate.
Defined.

(** An empty string stored under the key is falsy for the request
    interceptor: nothing is attached. *)
Example request_empty_token :
  bearer (request_interceptor
            {| localStorage := {[ "access_token" := "" ]}; location := "/" |}
            (request "GET" "/datasets")) = None.
Proof. vm_compute. reflexivity. Qed.

Lemma failed_login_keeps_session_witness :
  browser (fst (login string id id (Rejected server_error) signed_in))
    = browser signed_in
  ∧ browser (fst (login string id id (Rejected unauthorized) signed_in))
    = cleared (browser signed_in).
Proof.
  split.
  - apply (failed_login_keeps_session string id id signed_in server_error).
    discriminate.
  - apply (failed_login_keeps_session string id id signed_in unauthorized).
    reflexivity.
Defined.

(** C9 as claimed fails: a login rejected with a 401 while a session is
    stored removes the stored token and the stored user (and leaves for
    the login page); the same holds for a registration. *)
Lemma failed_login_clears_session :
  let w := fst (login string id id (Rejected unauthorized) signed_in) in
  let w' := fst (register string id id (Rejected unauthorized) signed_in) in
  getItem "access_token" (browser signed_in) = Some "t0"
  ∧ getItem "user" (browser signed_in) = Some "ann"
  ∧ getItem "access_token" (browser w) = None
  ∧ getItem "user" (browser w) = None
  ∧ location (browser w) = "/login"
  ∧ getItem "access_token" (browser w') = None
  ∧ getItem "user" (browser w') = None
  ∧ localStorage (browser w) ≠ localStorage (browser signed_in).
Proof.
  intros w w'. repeat split; try (vm_compute; reflexivity).
  intros H. apply (f_equal (lookup "user")) in H.
  vm_compute in H. discriminate H.
Qed.

(** A call fulfilled with a body whose user is null fails as well, yet
    after both keys were written: reading [full_name] throws, the
    [catch] block shows the fallback text and rethrows. *)
Example login_throws_after_writing :
  let w := reloaded {| localStorage := ∅; location := "/login" |} in
  let out := login string id id (Resolved (without_user "t1" null)) w in
  snd out = inl TypeError
  ∧ getItem "access_token" (browser (fst out)) = Some "t1"
  ∧ getItem "user" (browser (fst out)) = Some "null"
  ∧ user (fst out) = None
  ∧ toasts (fst out) = [error "Login failed"]
  ∧ isLoading (fst out) = false.
Proof. repeat split; vm_compute; reflexivity. Qed.

End Sessions.

(** * Further properties of the components *)

(** ** The table: footer, sort arrows, filters *)
Section TableFacts.

Import DatasetView DataTable Pager.
Local Open Scope Z_scope.

(** X1. With the page the server reports inside [1, pages], a click on an
    enabled paging button asks for a page inside [1, pages]; the button
    back is disabled on page 1 and the button forward on the last page. *)
Theorem paging_buttons_stay_in_range (s : State) (pg : Pagination)
    (a : Action) :
  1 ≤ current pg ≤ pages pg →
  (clickPrev pg = Some a ∨ clickNext pg = Some a →
   1 ≤ page (query (handle a s)) ≤ pages pg)
  ∧ (current pg = 1 → clickPrev pg = None)
  ∧ (current pg = pages pg → clickNext pg = None).
Proof.
  intros Hr. unfold clickPrev, clickNext, prev_disabled, next_disabled.
  split; [|split].
  - intros [H|H]; case_bool_decide; simplify_eq; simpl; lia.
  - intros ->. by rewrite bool_decide_eq_true_2.
  - intros ->. by rewrite bool_decide_eq_true_2 by lia.
Qed.

Lemma paging_buttons_stay_in_range_witness :
  let pg := {| current := 2; pages := 3; total := 25 |} in
  1 ≤ page (query (handle (ClickPage 3) initialState)) ≤ 3
  ∧ clickNext {| current := 3; pages := 3; total := 25 |} = None.
Proof.
  intros pg. split.
  - apply (proj1 (paging_buttons_stay_in_range initialState pg (ClickPage 3)
                    ltac:(simpl; lia))).
    right. reflexivity.
  - apply (paging_buttons_stay_in_range initialState
             {| current := 3; pages := 3; total := 25 |} (ClickPage 0)
             ltac:(simpl; lia)).
    reflexivity.
Defined.

(** X2. For a page that holds at least one row (page size at least 1,
    page at least 1, rows before the page fewer than the total), the range
    shown is well-formed: 1 ≤ start ≤ end ≤ total, it spans at most one
    page size, and on the last page it ends at the total. *)
Theorem range_label_well_formed (s : State) (pg : Pagination) :
  1 ≤ limit (query s) → 1 ≤ current pg →
  (current pg - 1) * limit (query s) < total pg →
  1 ≤ startItem s pg ≤ endItem s pg
  ∧ endItem s pg ≤ total pg
  ∧ endItem s pg - startItem s pg + 1 ≤ limit (query s)
  ∧ (total pg ≤ current pg * limit (query s) → endItem s pg = total pg).
Proof.
  unfold startItem, endItem. intros Hl Hp Ht. nia.
Qed.

Lemma range_label_well_formed_witness :
  let pg := {| current := 3; pages := 3; total := 25 |} in
  startItem initialState pg = 21 ∧ endItem initialState pg = 25
  ∧ 1 ≤ startItem initialState pg ≤ endItem initialState pg.
Proof.
  intros pg. split; [reflexivity|]. split; [reflexivity|].
  apply (range_label_well_formed initialState pg); simpl; lia.
Defined.

(** X3. After a click on a column header the arrow is shown on that column
    and on no other; it points up for ascending and down for descending,
    and a second click on the same header turns it over. *)
Theorem sort_arrow_follows_click (s : State) (c c' : string) :
  let s1 := handle (ClickSort c) s in
  let s2 := handle (ClickSort c) s1 in
  (c' ≠ c → getSortIcon s1 c' = None)
  ∧ getSortIcon s1 c
    = Some (match sort_order (query s1) with
            | asc => ArrowUpIcon | desc => ArrowDownIcon end)
  ∧ getSortIcon s2 c
    = Some (match getSortIcon s1 c with
            | Some ArrowUpIcon => ArrowDownIcon | _ => ArrowUpIcon end).
Proof.
  simpl. unfold getSortIcon. simpl. split; [|split].
  - intros Hne. by rewrite bool_decide_eq_true_2 by congruence.
  - rewrite (bool_decide_eq_false_2 (c ≠ c)) by (intros H; by apply H).
    by repeat case_bool_decide.
  - rewrite !(bool_decide_eq_false_2 (c ≠ c)) by (intros H; by apply H).
    rewrite (bool_decide_eq_true_2 (c = c)) by done.
    by repeat case_bool_decide.
Qed.

Lemma sort_arrow_follows_click_witness :
  getSortIcon (handle (ClickSort "name") initialState) "age" = None.
Proof.
  apply (proj1 (sort_arrow_follows_click initialState "name" "age")).
  discriminate.
Defined.

(** X4. [removeFilter index] removes exactly the filter at that position:
    the filters before it keep their place, the ones after it move up by
    one.  An index past the end removes nothing, yet the query is
    replaced (so a fetch is scheduled) and the page is reset. *)
Theorem removeFilter_positions (s : State) (index : nat) :
  let fs := filters (query s) in
  let fs' := filters (query (handle (ClickRemoveFilter index) s)) in
  (∀ j, (j < index)%nat → fs' !! j = fs !! j)
  ∧ (∀ j, (index ≤ j)%nat → fs' !! j = fs !! S j)
  ∧ ((index < length fs)%nat → length fs' = (length fs - 1)%nat)
  ∧ ((length fs ≤ index)%nat →
     fs' = fs ∧ mutates (ClickRemoveFilter index) s = true
     ∧ page (query (handle (ClickRemoveFilter index) s)) = 1).
Proof.
  intros fs fs'. subst fs fs'. rewrite removeFilter_delete.
  split; [|split; [|split]].
  - intros j Hj. by apply list_lookup_delete_lt.
  - intros j Hj. by apply list_lookup_delete_ge.
  - intros Hi. apply length_delete. by apply lookup_lt_is_Some.
  - intros Hi. split; [|done].
    apply list_eq. intros j. rewrite list_lookup_delete.
    case_decide; [done|].
    rewrite !lookup_ge_None_2; [done|lia..].
Qed.

Lemma removeFilter_positions_witness :
  let f := λ v, {| column := "age"; operator := "gt"; value := v |} in
  let s := {| query := {| page := 4; limit := 10; sort_by := "";
                          sort_order := asc; search := "";
                          filters := [f "1"; f "2"; f "3"] |};
              showFilters := true; filterColumn := "";
              filterOperator := "contains"; filterValue := "" |} in
  filters (query (handle (ClickRemoveFilter 1) s)) !! 1%nat = Some (f "3")
  ∧ filters (query (handle (ClickRemoveFilter 7) s)) = [f "1"; f "2"; f "3"].
Proof.
  intros f s. split.
  - rewrite (proj1 (proj2 (removeFilter_positions s 1)) 1%nat) by lia.
    reflexivity.
  - apply (proj2 (proj2 (proj2 (removeFilter_positions s 7)))).
    simpl. lia.
Defined.

(** X5. Adding a filter and then removing the last chip gives back the
    filters as they were. *)
Theorem addFilter_removeFilter_round_trip (s : State) :
  filterColumn s ≠ "" → filterValue s ≠ "" →
  filters (query (run [ClickAddFilter;
                       ClickRemoveFilter (length (filters (query s)))] s))
  = filters (query s).
Proof.
  intros Hc Hv. unfold run, fold_left.
  rewrite removeFilter_delete, (addFilter_accepted s Hc Hv). simpl.
  rewrite delete_take_drop, take_app_length.
  rewrite drop_ge by (rewrite length_app; simpl; lia).
  by rewrite app_nil_r.
Qed.

Lemma addFilter_removeFilter_round_trip_witness :
  let s := run [SelectFilterColumn "age"; TypeFilterValue "30"]
             initialState in
  filters (query (run [ClickAddFilter; ClickRemoveFilter 0] s)) = [].
Proof.
  intros s.
  apply (addFilter_removeFilter_round_trip s); discriminate.
Defined.

End TableFacts.

(** ** The table: what reaches the parent *)
Section NotificationFacts.

Import DataTable.
Local Open Scope Z_scope.

Lemma fire_out_timer (now : Z) (tb tb' : Table) :
  timer tb = timer tb' → snd (fire now tb) = snd (fire now tb').
Proof.
  intros H. unfold fire. rewrite H.
  destruct (timer tb') as [[d q]|]; [|done]. by case_bool_decide.
Qed.

Lemma fire_comp (now : Z) (tb : Table) : comp (fst (fire now tb)) = comp tb.
Proof.
  unfold fire. destruct (timer tb) as [[d q]|]; [|done].
  by case_bool_decide.
Qed.

Lemma act_quiet_timer (now : Z) (a : Action) (tb : Table) :
  mutates a (comp tb) = false → timer (act now a tb) = timer tb.
Proof. intros H. unfold act. simpl. fold (mutates a (comp tb)). by rewrite H. Qed.

Lemma tick_tick (t T : Z) (w : World) :
  t ≤ T → calls (tick T (tick t w)) = calls (tick T w).
Proof.
  intros Hle. destruct w as [[[s [[d q]|]]|] log]; unfold tick, fire; simpl;
    repeat (case_bool_decide; simpl); rewrite ?app_nil_r; try done; lia.
Qed.

Lemma tick_calls (T : Z) (w : World) (tb : Table) :
  table w = Some tb → calls (tick T w) = calls w ++ snd (fire T tb).
Proof. intros H. unfold tick. rewrite H. by destruct (fire T tb). Qed.

Lemma tick_table (t : Z) (w : World) (tb : Table) :
  table w = Some tb → table (tick t w) = Some (fst (fire t tb)).
Proof. intros H. unfold tick. rewrite H. by destruct (fire t tb). Qed.

(** X6. Actions that are not mutations (edits of the filter form, opening
    the filter panel, a rejected [addFilter]) neither cause a call nor
    delay or cancel the pending one, and leave the query alone: the calls
    made up to a time [T] after them are the calls made up to [T] without
    them. *)
Theorem quiet_actions_do_not_notify (w : World) (tb : Table)
    (evs : list (Z * Action)) (T : Z) :
  table w = Some tb → quiet (comp tb) evs →
  Forall (λ te, fst te ≤ T) evs →
  calls (tick T (play (as_events evs) w)) = calls (tick T w)
  ∧ (query ∘ comp) <$> table (play (as_events evs) w)
    = Some (query (comp tb)).
Proof.
  revert w tb. induction evs as [|[t a] evs IH]; intros w tb Htb Hq Hle.
  - simpl. by rewrite Htb.
  - destruct Hq as [Hm Hq]. apply Forall_cons in Hle as [Ht Hle].
    simpl in Ht. simpl.
    pose proof (tick_table t w tb Htb) as Htb1.
    rewrite Htb1.
    set (tb1 := fst (fire t tb)) in *.
    assert (Hc1 : comp tb1 = comp tb) by apply fire_comp.
    set (w' := {| table := Some (act t a tb1); calls := calls (tick t w) |}).
    destruct (IH w' (act t a tb1) eq_refl) as [IH1 IH2]; [|done|].
    { unfold act. simpl. fold (handle a (comp tb1)). by rewrite Hc1. }
    fold (play (as_events evs) w'). split.
    + rewrite IH1. rewrite (tick_calls T w' _ eq_refl). simpl.
      rewrite (fire_out_timer T _ tb1)
        by (apply act_quiet_timer; by rewrite Hc1).
      rewrite <- (tick_calls T (tick t w) tb1 Htb1).
      by apply tick_tick.
    + rewrite IH2. f_equal. unfold act. simpl.
      fold (handle a (comp tb1)). rewrite Hc1.
      by apply mutates_false_query.
Qed.

Lemma quiet_actions_do_not_notify_witness :
  let w := play [(0, Mount)] unmounted in
  calls (tick 400 (play (as_events [(100, SelectFilterColumn "age");
                                    (200, ClickAddFilter);
                                    (250, ClickFilters)]) w))
  = [(300, initialQuery)].
Proof.
  intros w.
  rewrite (proj1 (quiet_actions_do_not_notify w (mount 0)
             [(100, SelectFilterColumn "age"); (200, ClickAddFilter);
              (250, ClickFilters)] 400 eq_refl
             ltac:(repeat split) ltac:(repeat constructor; simpl; lia))).
  reflexivity.
Defined.

Lemma spaced_snoc (log : list (Z * Query)) (c : Z * Query) :
  spaced log → (∀ c', c' ∈ log → fst c' + debounce ≤ fst c) →
  spaced (log ++ [c]).
Proof.
  intros Hs Hc i c1 c2 H1 H2.
  destruct (decide (S i < length log)%nat) as [Hlt|Hge].
  - rewrite lookup_app_l in H1 by lia. rewrite lookup_app_l in H2 by lia.
    by eapply Hs.
  - assert (Hi : S i = length log).
    { apply lookup_lt_Some in H2. rewrite length_app in H2. simpl in H2. lia. }
    rewrite lookup_app_l in H1 by lia.
    rewrite lookup_app_r in H2 by lia.
    replace (S i - length log)%nat with 0%nat in H2 by lia.
    simpl in H2. simplify_eq. apply Hc. by eapply list_elem_of_lookup_2.
Qed.

Lemma tick_spaced_inv (clock now : Z) (w : World) :
  clock ≤ now → spaced_inv clock w → spaced_inv now (tick now w).
Proof.
  intros Hle (Hs & Hc & Ht). unfold tick.
  destruct (table w) as [tb|] eqn:Htb.
  - unfold fire. destruct (timer tb) as [[d q]|] eqn:Htm.
    + case_bool_decide as Hd.
      * split; [|split]; simpl.
        -- apply spaced_snoc; [done|]. intros c' Hc'. simpl.
           by eapply Ht.
        -- intros c Hin. apply elem_of_app in Hin as [Hin|Hin].
           ++ specialize (Hc _ Hin). lia.
           ++ apply list_elem_of_singleton in Hin. by subst.
        -- intros tb' d' q' [= <-]. simpl. discriminate.
      * split; [|split]; simpl; rewrite ?app_nil_r; [done| |].
        -- intros c Hin. specialize (Hc _ Hin). lia.
        -- intros tb' d' q' [= <-] Htm'. by eapply Ht.
    + split; [|split]; simpl; rewrite ?app_nil_r; [done| |].
      * intros c Hin. specialize (Hc _ Hin). lia.
      * intros tb' d' q' [= <-] Htm'. congruence.
  - split; [done|]. split.
    + intros c Hin. specialize (Hc _ Hin). lia.
    + intros tb d q Htb'. congruence.
Qed.

Lemma step_spaced_inv (clock now : Z) (e : Event) (w : World) :
  clock ≤ now → spaced_inv clock w → spaced_inv now (step w (now, e)).
Proof.
  intros Hle Hinv. apply (tick_spaced_inv _ _ _ Hle) in Hinv.
  unfold step. set (w1 := tick now w) in *.
  pose proof Hinv as (Hs & Hc & Ht).
  assert (Hnew : ∀ s q, spaced_inv now
            {| table := Some {| comp := s; timer := setTimeout now q |};
               calls := calls w1 |}).
  { intros s q. split; [done|]. split; [done|]. simpl.
    intros tb' d' q' [= <-]. unfold setTimeout. simpl. intros [= <- <-] c Hin.
    specialize (Hc _ Hin). lia. }
  destruct e as [| |a]; destruct (table w1) as [tb|] eqn:Htb;
    try exact Hinv.
  - apply Hnew.
  - split; [done|]. split; [done|]. simpl. intros; discriminate.
  - split; [done|]. split; [done|]. simpl. intros; discriminate.
  - unfold act. destruct (query_replaced (updates_of a (comp tb))).
    + apply Hnew.
    + split; [done|]. split; [done|]. simpl.
      intros tb' d' q' [= <-]. simpl. intros Htm. by eapply Ht.
Qed.

(** X7. Along events in time order, starting before the first mount, two
    consecutive [onQueryChange] calls are never less than 300 time units
    apart, whatever the user does. *)
Theorem calls_are_spaced (clock : Z) (evs : list (Z * Event)) :
  in_time_order clock evs → spaced (calls (play evs unmounted)).
Proof.
  intros Ho.
  assert (H : ∀ evs clock w, in_time_order clock evs → spaced_inv clock w →
            spaced (calls (play evs w))).
  { clear. induction evs as [|[t e] evs IH]; intros clock w Ho Hinv.
    - apply Hinv.
    - destruct Ho as [Hle Ho]. simpl.
      apply (IH t); [done|]. by apply (step_spaced_inv clock). }
  apply (H evs clock); [done|].
  split; [|split]; simpl.
  - intros i c c' Hc. by rewrite lookup_nil in Hc.
  - intros c Hc. by apply not_elem_of_nil in Hc.
  - intros; discriminate.
Qed.

Lemma calls_are_spaced_witness :
  spaced (calls (play [(0, Mount); (100, Do (TypeSearch "a"));
                       (500, Do (TypeSearch "ab"));
                       (900, Do ClickFilters)] unmounted))
  ∧ calls (play [(0, Mount); (100, Do (TypeSearch "a"));
                 (500, Do (TypeSearch "ab"));
                 (900, Do ClickFilters)] unmounted)
    = [(400, {| page := 1; limit := 10; sort_by := ""; sort_order := asc;
                search := "a"; filters := [] |});
       (800, {| page := 1; limit := 10; sort_by := ""; sort_order := asc;
                search := "ab"; filters := [] |})].
Proof.
  split; [|reflexivity].
  apply (calls_are_spaced 0). simpl. lia.
Defined.

(** X8. In every state a table can reach, the pending timer holds the
    query as it is now: the call made when the timer fires carries the
    current query, never an earlier one. *)
Theorem call_carries_current_query (evs : list (Z * Event)) (tb : Table)
    (now : Z) (c : Z * Query) :
  table (play evs unmounted) = Some tb →
  c ∈ snd (fire now tb) → snd c = query (comp tb).
Proof.
  assert (H : ∀ evs w,
            (∀ tb d q, table w = Some tb → timer tb = Some (d, q) →
               q = query (comp tb)) →
            ∀ tb d q, table (play evs w) = Some tb → timer tb = Some (d, q) →
               q = query (comp tb)).
  { clear. induction evs as [|[t e] evs IH]; intros w Hw; [done|].
    simpl. apply IH. clear IH.
    assert (Hk : ∀ tb d q, table (tick t w) = Some tb →
              timer tb = Some (d, q) → q = query (comp tb)).
    { intros tb d q. unfold tick. destruct (table w) as [tb0|] eqn:Htb0.
      - unfold fire. destruct (timer tb0) as [[d0 q0]|] eqn:Htm.
        + case_bool_decide; simpl; intros [= <-]; simpl; [done|].
          intros Htm'. by eapply Hw.
        + simpl. intros [= <-] Htm'. by eapply Hw.
      - rewrite Htb0. done. }
    destruct e as [| |a]; simpl.
    - destruct (table (tick t w)) eqn:Htb; [by rewrite <- Htb in *|].
      simpl. intros tb d q [= <-]. unfold mount, setTimeout. simpl.
      by intros [= <- <-].
    - simpl. intros; discriminate.
    - destruct (table (tick t w)) as [tb1|] eqn:Htb;
        [|by rewrite <- Htb in *].
      simpl. intros tb d q [= <-]. unfold act. simpl.
      fold (handle a (comp tb1)). fold (mutates a (comp tb1)).
      destruct (mutates a (comp tb1)) eqn:Hm.
      + unfold setTimeout. by intros [= <- <-].
      + intros Htm. rewrite (mutates_false_query _ _ Hm). by eapply Hk. }
  intros Htb Hc. unfold fire in Hc.
  destruct (timer tb) as [[d q]|] eqn:Htm;
    [|by apply not_elem_of_nil in Hc].
  case_bool_decide; simpl in Hc; [|by apply not_elem_of_nil in Hc].
  apply list_elem_of_singleton in Hc. subst c. simpl.
  eapply (H evs unmounted); [|done..]. simpl. intros; discriminate.
Qed.

Lemma call_carries_current_query_witness :
  let evs := [(0, Mount); (100, Do (TypeSearch "a"));
              (150, Do (SelectFilterColumn "age"))] in
  let q := {| page := 1; limit := 10; sort_by := ""; sort_order := asc;
              search := "a"; filters := [] |} in
  let tb := {| comp := run [TypeSearch "a"; SelectFilterColumn "age"]
                         initialState;
               timer := setTimeout 100 q |} in
  table (play evs unmounted) = Some tb
  ∧ (400, q) ∈ snd (fire 400 tb)
  ∧ snd (400, q) = query (comp tb).
Proof.
  intros evs q tb.
  assert (H1 : table (play evs unmounted) = Some tb) by reflexivity.
  assert (H2 : (400, q) ∈ snd (fire 400 tb))
    by (vm_compute; apply list_elem_of_here).
  split; [exact H1|]. split; [exact H2|].
  exact (call_carries_current_query evs tb 400 (400, q) H1 H2).
Defined.

End NotificationFacts.

(** ** The dataset page: identity, failures, leaving *)
Section PageFacts.

Import Api DataTable DatasetView.
Local Open Scope Z_scope.

Ltac unfold_handlers :=
  unfold loadDataset_settle, loadStats_settle, loadData_settle,
    loadAllData_continue, loadData, getData.

Lemma loadData_own (q : Query) (v : View) :
  own_dataset_inv v → own_dataset_inv (loadData q v).
Proof.
  intros [Hd Hc]. unfold loadData, getData.
  destruct (truthy (id v)); [|done]. split; [done|]. simpl.
  apply Forall_app. split; [done|]. by repeat constructor.
Qed.

Lemma run_timers_own (now : Z) (v : View) :
  own_dataset_inv v → own_dataset_inv (run_timers now v).
Proof.
  intros Hinv. unfold run_timers, fire.
  repeat (case_match; simplify_eq; simpl; try done).
  by apply loadData_own.
Qed.

Lemma handle_own (now : Z) (e : Event) (v : View) :
  own_dataset_inv v → own_dataset_inv (handle now e v).
Proof.
  intros Hinv. destruct e; simpl.
  - unfold loadDataset_settle, loadAllData_continue.
    destruct (phase v) as [|[] sp| |]; try done.
    destruct r as [ds|e]; simpl.
    + destruct (find _ ds) as [d|] eqn:Hf; simpl.
      * assert (Hd : dataset_id d = id v).
        { apply find_some in Hf as [_ Hf]. by apply bool_decide_eq_true in Hf. }
        assert (Hi : own_dataset_inv
                  (set_dataset (Some d) (set_phase (AwaitingMeta false sp) v))).
        { split; [|apply Hinv]. simpl. by intros d' [= <-]. }
        destruct sp; [done|]. by apply loadData_own.
      * destruct sp; [done|]. by apply loadData_own.
    + destruct sp; [done|]. by apply loadData_own.
  - unfold loadStats_settle, loadAllData_continue.
    destruct (phase v) as [|dp []| |]; try done.
    destruct r as [st|e]; simpl; destruct dp; try done;
      by apply loadData_own.
  - unfold loadData_settle. destruct Hinv as [Hd Hc].
    repeat (case_match; simpl; try done).
  - by case_match.
  - by case_match.
  - done.
Qed.

Lemma reconcile_own (now : Z) (v : View) :
  own_dataset_inv v → own_dataset_inv (reconcile now v).
Proof. intros Hinv. unfold reconcile. by repeat case_match. Qed.

(** X9. Whatever the server answers and the user does, the dataset a view
    shows has the id of its route, and every page fetch it makes is for
    that id. *)
Theorem view_keeps_to_its_dataset (i : string) (evs : list (Z * Event)) :
  let v := play evs (mount i) in
  (∀ d, dataset v = Some d → dataset_id d = i)
  ∧ Forall (λ c, fst c = i) (getData_calls v).
Proof.
  assert (H : ∀ evs v, own_dataset_inv v → own_dataset_inv (play evs v)).
  { clear. induction evs as [|[t e] evs IH]; intros v Hinv; [done|].
    simpl. by apply IH, reconcile_own, handle_own, run_timers_own. }
  intros v. subst v.
  destruct (H evs (mount i)) as [Hd Hc].
  { split; [done|]. simpl. constructor. }
  rewrite play_id in Hd, Hc. done.
Qed.

Lemma reconcile_toasts (now : Z) (v : View) :
  toasts (reconcile now v) = toasts v.
Proof. unfold reconcile. by repeat case_match. Qed.

Lemma reconcile_isDataLoading (now : Z) (v : View) :
  isDataLoading (reconcile now v) = isDataLoading v.
Proof. unfold reconcile. by repeat case_match. Qed.

Lemma view_keeps_to_its_dataset_witness :
  let d := {| dataset_id := "d1"; columns := ["name"] |} in
  dataset (play late_answer_session (mount "d1")) = Some d
  ∧ dataset_id d = "d1".
Proof.
  intros d.
  assert (H : dataset (play late_answer_session (mount "d1")) = Some d)
    by (vm_compute; reflexivity).
  split; [exact H|].
  exact (proj1 (view_keeps_to_its_dataset "d1" late_answer_session) d H).
Defined.

(** X10. A rejected answer to a page fetch in flight leaves the page
    shown as it was, reports the server's detail (or the fixed text when
    there is none) and ends the loading state. *)
Theorem rejected_page_keeps_rows (v : View) (now : Z) (n : nat) (q : Query)
    (e : Error) :
  lookup_request n (in_flight v) = Some q →
  let v' := step v (now, DataResponse n (Rejected e)) in
  data v' = data v
  ∧ last (toasts v') = Some (message_of e "Failed to load data")
  ∧ isDataLoading v' = false.
Proof.
  intros Hq v'. subst v'. unfold step.
  pose proof (run_timers_in_flight now n q v Hq) as Hq'.
  assert (Hd : data (run_timers now v) = data v).
  { unfold run_timers, fire, loadData.
    repeat (case_match; simplify_eq; simpl; try done). }
  set (v1 := run_timers now v) in *.
  assert (Hs : ∀ w, w = handle now (DataResponse n (Rejected e)) v1 →
            data w = data v1
            ∧ last (toasts w) = Some (message_of e "Failed to load data")
            ∧ isDataLoading w = false).
  { intros w ->. simpl. unfold loadData_settle. rewrite Hq'.
    repeat (case_match; simpl); rewrite last_snoc; done. }
  destruct (Hs _ eq_refl) as (H1 & H2 & H3).
  by rewrite reconcile_data, reconcile_toasts, reconcile_isDataLoading,
    H1, H2, H3, Hd.
Qed.

Lemma rejected_page_keeps_rows_witness :
  let v := play (take 6 late_answer_session) (mount "d1") in
  let v' := step v (1800, DataResponse 2
                            (Rejected {| status := Some 500;
                                         detail := Some "boom" |})) in
  data v' = Some (people ["ann"; "bob"]) ∧ last (toasts v') = Some "boom".
Proof.
  intros v v'.
  destruct (rejected_page_keeps_rows v 1800 2
              {| page := 1; limit := 10; sort_by := ""; sort_order := asc;
                 search := "b"; filters := [] |}
              {| status := Some 500; detail := Some "boom" |})
    as (H1 & H2 & _).
  - vm_compute. reflexivity.
  - split; [|exact H2]. fold v' in H1. rewrite H1.
    vm_compute. reflexivity.
Defined.

(** X11. The loading state of the table is ended by any answer to a call
    in flight, also while another call is still in flight: the spinner
    follows the last answer, not the number of calls outstanding. *)
Theorem loading_ends_at_first_answer (v : View) (now : Z) (nA nB : nat)
    (qA qB : Query) (r : Response PageResult) :
  lookup_request nA (in_flight v) = Some qA →
  lookup_request nB (in_flight v) = Some qB → nA ≠ nB →
  let v' := step v (now, DataResponse nB r) in
  isDataLoading v' = false ∧ lookup_request nA (in_flight v') = Some qA.
Proof.
  intros HA HB Hne v'. subst v'.
  split; [|by apply step_keeps_in_flight].
  unfold step.
  pose proof (run_timers_in_flight now nB qB v HB) as HB'.
  set (v1 := run_timers now v) in *.
  assert (Hs : isDataLoading (handle now (DataResponse nB r) v1) = false).
  { simpl. unfold loadData_settle. rewrite HB'.
    by repeat (case_match; simpl). }
  by rewrite reconcile_isDataLoading.
Qed.

Lemma loading_ends_at_first_answer_witness :
  let v := play (take 6 late_answer_session) (mount "d1") in
  let v' := step v (1800, DataResponse 2 (Resolved (people ["bob"]))) in
  isDataLoading v' = false
  ∧ lookup_request 1 (in_flight v') = Some initialQuery.
Proof.
  intros v v'.
  apply (loading_ends_at_first_answer v 1800 1 2 initialQuery
           {| page := 1; limit := 10; sort_by := ""; sort_order := asc;
              search := "b"; filters := [] |}).
  - vm_compute. reflexivity.
  - vm_compute. reflexivity.
  - lia.
Defined.

Lemma reconcile_left (now : Z) (v : View) :
  left v = true →
  left (reconcile now v) = true ∧ table (reconcile now v) = None
  ∧ activeTab (reconcile now v) = activeTab v.
Proof.
  intros Hl. unfold reconcile, table_rendered, body_rendered. rewrite Hl.
  simpl. by destruct (table v) eqn:Ht.
Qed.

Lemma left_stays (now : Z) (e : Event) (v : View) :
  left v = true → table v = None →
  left (step v (now, e)) = true ∧ table (step v (now, e)) = None
  ∧ activeTab (step v (now, e)) = activeTab v.
Proof.
  intros Hl Ht. unfold step, run_timers. rewrite Ht.
  assert (Hh : ∀ w, w = handle now e v →
            left w = true ∧ table w = None ∧ activeTab w = activeTab v).
  { intros w ->. destruct e; simpl.
    - unfold_handlers. by repeat (case_match; simpl).
    - unfold_handlers. by repeat (case_match; simpl).
    - unfold_handlers. by repeat (case_match; simpl).
    - unfold body_rendered. by rewrite Hl.
    - by rewrite Ht.
    - done. }
  destruct (Hh _ eq_refl) as (H1 & H2 & H3).
  destruct (reconcile_left now _ H1) as (H4 & H5 & H6).
  by rewrite H4, H5, H6.
Qed.

(** X12. When the dataset lookup fails (the call is rejected, or the
    answer holds no dataset with the id of the route) the view leaves for
    the list page, and from then on nothing renders the table or changes
    the tab, whatever arrives later. *)
Theorem failed_lookup_leaves_for_good (v : View) (now : Z) (sp : bool)
    (r : Response (list Dataset)) (evs : list (Z * Event)) :
  phase v = AwaitingMeta true sp → lookup_fails r (id v) = true →
  let v' := step v (now, DatasetsResponse r) in
  left v' = true
  ∧ left (play evs v') = true
  ∧ table (play evs v') = None
  ∧ activeTab (play evs v') = activeTab v.
Proof.
  intros Hp Hf v'.
  assert (H0 : left v' = true ∧ table v' = None ∧ activeTab v' = activeTab v).
  { subst v'. unfold step.
    assert (Hp1 : phase (run_timers now v) = AwaitingMeta true sp
                  ∧ id (run_timers now v) = id v
                  ∧ activeTab (run_timers now v) = activeTab v).
    { unfold run_timers, fire, loadData.
      repeat (case_match; simplify_eq; simpl; try done). }
    destruct Hp1 as (Hp1 & Hi1 & Ha1). set (v1 := run_timers now v) in *.
    assert (Hh : ∀ w, w = handle now (DatasetsResponse r) v1 →
              left w = true ∧ activeTab w = activeTab v).
    { intros w ->. simpl. unfold loadDataset_settle. rewrite Hp1.
      unfold lookup_fails in Hf. rewrite <- Hi1 in Hf.
      destruct r as [ds|e]; simpl.
      - destruct (find _ ds); [done|]. unfold_handlers.
        by repeat (case_match; simpl).
      - unfold_handlers. by repeat (case_match; simpl). }
    destruct (Hh _ eq_refl) as (H1 & H2).
    destruct (reconcile_left now _ H1) as (H4 & H5 & H6).
    by rewrite H4, H5, H6. }
  destruct H0 as (Hl & Ht & Ha). split; [done|].
  rewrite <- Ha. clear Ha Hp Hf. generalize dependent v'.
  induction evs as [|[t e] evs IH]; intros v' Hl Ht; [done|].
  simpl. destruct (left_stays t e v' Hl Ht) as (H1 & H2 & H3).
  rewrite <- H3. by apply IH.
Qed.

Lemma failed_lookup_leaves_for_good_witness :
  let v' := step (mount "d1")
              (10, DatasetsResponse
                     (Resolved [ {| dataset_id := "d2"; columns := [] |} ])) in
  table (play [(20, StatsResponse (Resolved {| numeric_columns := [];
                                               categorical_columns := [] |}));
               (30, DataResponse 0 (Resolved (people ["ann"])));
               (40, SelectTab "table")] v') = None.
Proof.
  intros v'.
  apply (failed_lookup_leaves_for_good (mount "d1") 10 true
           (Resolved [ {| dataset_id := "d2"; columns := [] |} ])).
  - reflexivity.
  - reflexivity.
Defined.

End PageFacts.

(** ** The list page *)
Section ListFacts.

Import Api Dashboard.
Local Open Scope Z_scope.

(** X13. The list shown changes only when a [getAll] answer is
    fulfilled, and then to that answer: deleting never removes an entry
    locally, and a rejected answer keeps the list shown before it. *)
Theorem list_is_last_answer (evs : list Event) (s : State) :
  datasets (play evs s) = last_loaded evs (datasets s).
Proof.
  revert s. induction evs as [|e evs IH]; intros s; [done|].
  simpl. rewrite IH. unfold last_loaded. simpl. f_equal.
  by destruct e as [| | |[] d|[]|[]].
Qed.

(** A dataset deleted on the server stays listed when the reload that
    follows the deletion fails. *)
Example deleted_dataset_still_listed :
  let d := {| summary_id := "d1"; name := "sales"; row_count := 3;
              columns := ["a"]; user_id := "u1" |} in
  let s := play [DatasetsSettled (Resolved [d])] mount in
  datasets (play [Delete true d; DeleteSettled (Resolved ());
                  DatasetsSettled (Rejected {| status := Some 500;
                                               detail := None |})] s)
  = [d].
Proof. reflexivity. Qed.

(** X14. The loading state of the list page ends with the first answer,
    fulfilled or not, and nothing turns it on again: later reloads run
    without it. *)
Theorem list_loading_only_once (r : Response (list Summary))
    (evs : list Event) :
  isLoading mount = true
  ∧ isLoading (play (DatasetsSettled r :: evs) mount) = false.
Proof.
  split; [done|]. simpl.
  assert (H : ∀ evs s, isLoading s = false → isLoading (play evs s) = false).
  { clear. induction evs as [|e evs IH]; intros s Hs; [done|].
    simpl. apply IH. by destruct e as [| | |[] d|[]|[]]. }
  apply H. by destruct r.
Qed.

Lemma filter_getAll_app (l l' : list Config) :
  length (filter (λ c, is_getAll c = true) (l ++ l'))
  = (length (filter (λ c, is_getAll c = true) l)
     + length (filter (λ c, is_getAll c = true) l'))%nat.
Proof. by rewrite filter_app, length_app. Qed.

Lemma filter_reloads_cons (e : Event) (evs : list Event) :
  length (filter (λ e, reloads e = true) (e :: evs))
  = ((if reloads e then 1 else 0)
     + length (filter (λ e, reloads e = true) evs))%nat.
Proof. rewrite filter_cons. by destruct (reloads e). Qed.

(** X15. The list is fetched once at mount and once more after each
    upload that succeeded and each deletion the server accepted; a
    declined or rejected deletion fetches nothing. *)
Theorem list_fetches_counted (evs : list Event) :
  length (filter (λ c, is_getAll c = true) (requests (play evs mount)))
  = S (length (filter (λ e, reloads e = true) evs)).
Proof.
  assert (H : ∀ evs s,
            length (filter (λ c, is_getAll c = true) (requests (play evs s)))
            = (length (filter (λ c, is_getAll c = true) (requests s))
               + length (filter (λ e, reloads e = true) evs))%nat).
  { clear. induction evs as [|e evs IH]; intros s; [simpl; lia|].
    simpl play. rewrite IH, filter_reloads_cons.
    destruct e as [| | |[] d|[u|e]|[]]; simpl; unfold handleDeleteDataset;
      simpl; rewrite ?filter_getAll_app; simpl; lia. }
  rewrite H. reflexivity.
Qed.

End ListFacts.

(** ** The session: signing in, restoring, signing out *)
Section SessionFacts.

Import Api AuthContext.
Local Open Scope Z_scope.

Variable User : Type.
Variable full_name : User → string.
Variable JSON_stringify : User → string.
Variable JSON_parse : string → option User.

Abbreviation World := (World User).
Abbreviation Event := (Event User).
Abbreviation step := (step User full_name JSON_stringify JSON_parse).
Abbreviation play := (play User full_name JSON_stringify JSON_parse).
Abbreviation login := (login User full_name JSON_stringify).
Abbreviation register := (register User full_name JSON_stringify).
Abbreviation initAuth_request := (AuthContext.initAuth_request JSON_parse).
Abbreviation sent_during :=
  (sent_during User full_name JSON_stringify JSON_parse).

Lemma stored_after_login (r : AuthResponse User) (w : World) :
  let b := browser (fst (login (Resolved (with_user r)) w)) in
  getItem "access_token" b = Some (access_token r)
  ∧ getItem "user" b = Some (JSON_stringify (user_of r)).
Proof.
  unfold getItem. simpl. split.
  - rewrite lookup_insert_ne by done. apply lookup_insert_eq.
  - apply lookup_insert_eq.
Qed.

(** X16. A successful login stores the token and the serialized user,
    sets the user in memory and returns normally; from then on a request
    carries [Bearer] followed by the token just received. *)
Theorem login_then_token_attached (r : AuthResponse User) (w : World)
    (e : Event) :
  access_token r ≠ "" →
  let w1 := fst (login (Resolved (with_user r)) w) in
  snd (login (Resolved (with_user r)) w) = inr ()
  ∧ getItem "access_token" (browser w1) = Some (access_token r)
  ∧ getItem "user" (browser w1) = Some (JSON_stringify (user_of r))
  ∧ user w1 = Some (user_of r)
  ∧ Forall (λ c, bearer c = Some ("Bearer " +:+ access_token r))
           (sent_during [e] w1).
Proof.
  intros Hne w1. subst w1.
  destruct (stored_after_login r w) as [Ht Hu].
  split; [done|]. split; [done|]. split; [done|]. split; [done|].
  unfold AuthContext.sent_during. simpl.
  rewrite step_sent, drop_app_length.
  apply Forall_map, Forall_forall. intros c _. simpl.
  by apply request_with_token.
Qed.

(** X17. With the token or the stored user missing or empty, [initAuth]
    sends nothing and touches neither the browser nor the user: it only
    ends the loading state.  A token stored without a user is therefore
    kept as it is. *)
Theorem initAuth_without_session (w : World) :
  getItem "access_token" (browser w) = None
  ∨ getItem "access_token" (browser w) = Some ""
  ∨ getItem "user" (browser w) = None
  ∨ getItem "user" (browser w) = Some "" →
  let w' := initAuth_request w in
  browser w' = browser w ∧ user w' = user w ∧ sent w' = sent w
  ∧ isLoading w' = false.
Proof.
  intros H. unfold AuthContext.initAuth_request.
  assert (Hs : stored_session w = None).
  { unfold stored_session.
    destruct H as [H|[H|[H|H]]]; rewrite H; try done.
    - by destruct (getItem "user" (browser w)).
    - by destruct (getItem "access_token" (browser w)).
    - destruct (getItem "access_token" (browser w)); [|done].
      by rewrite andb_false_r. }
  by rewrite Hs.
Qed.

Lemma stored_session_Some (w : World) (token savedUser : string) :
  getItem "access_token" (browser w) = Some token →
  getItem "user" (browser w) = Some savedUser →
  token ≠ "" → savedUser ≠ "" → stored_session w = Some savedUser.
Proof.
  intros Ht Hu Hn1 Hn2. unfold stored_session. rewrite Ht, Hu.
  apply truthy_true in Hn1, Hn2. by rewrite Hn1, Hn2.
Qed.

Lemma drop_session_keys (w : World) :
  getItem "access_token" (browser (drop_session w)) = None
  ∧ getItem "user" (browser (drop_session w)) = None.
Proof.
  unfold getItem. simpl. split.
  - rewrite lookup_delete_ne by done. apply lookup_delete_eq.
  - apply lookup_delete_eq.
Qed.

(** X18. With a stored session, [initAuth] either cannot read the stored
    user and drops the session without a request, or restores the user
    and validates the token with one request that carries it; a rejected
    validation, whatever its status, drops the session and the user, a
    fulfilled one keeps both. *)
Theorem initAuth_validates_session (w : World) (token savedUser : string) :
  getItem "access_token" (browser w) = Some token →
  getItem "user" (browser w) = Some savedUser →
  token ≠ "" → savedUser ≠ "" →
  let w1 := initAuth_request w in
  match JSON_parse savedUser with
  | None =>
      getItem "access_token" (browser w1) = None
      ∧ getItem "user" (browser w1) = None
      ∧ user w1 = None ∧ sent w1 = sent w ∧ isLoading w1 = false
  | Some userData =>
      user w1 = Some userData ∧ browser w1 = browser w
      ∧ (∃ c, sent w1 = sent w ++ [c] ∧ url c = "/auth/me"
              ∧ bearer c = Some ("Bearer " +:+ token))
      ∧ (∀ e, let w2 := initAuth_settle (Rejected e) w1 in
              getItem "access_token" (browser w2) = None
              ∧ getItem "user" (browser w2) = None
              ∧ user w2 = None ∧ isLoading w2 = false)
      ∧ (∀ d, let w3 := initAuth_settle (Resolved d) w1 in
              browser w3 = browser w ∧ user w3 = Some userData
              ∧ isLoading w3 = false)
  end.
Proof.
  intros Ht Hu Hn1 Hn2 w1. subst w1.
  unfold AuthContext.initAuth_request.
  rewrite (stored_session_Some w token savedUser) by done.
  destruct (JSON_parse savedUser) as [userData|].
  - split; [done|]. split; [done|]. split; [|split].
    + simpl. eexists. split; [reflexivity|]. split.
      * unfold request_interceptor. simpl. rewrite Ht.
        by destruct (truthy token).
      * by apply request_with_token.
    + intros e. simpl. unfold getItem. simpl.
      split; [|split; [|done]].
      * rewrite lookup_delete_ne by done. apply lookup_delete_eq.
      * apply lookup_delete_eq.
    + done.
  - destruct (drop_session_keys w) as [H1 H2]. done.
Qed.

(** X19. What a successful login stores is what a reload restores: with a
    parser that reads back what the serializer writes (and neither the
    token nor the serialized user empty), [initAuth] on the reloaded page
    sets the user who signed in, and a fulfilled validation keeps the
    session. *)
Theorem login_survives_reload (r : AuthResponse User) (w : World) :
  JSON_parse (JSON_stringify (user_of r)) = Some (user_of r) →
  access_token r ≠ "" → JSON_stringify (user_of r) ≠ "" →
  let b := browser (fst (login (Resolved (with_user r)) w)) in
  let w' := initAuth_settle (Resolved ()) (initAuth_request (reloaded b)) in
  user w' = Some (user_of r)
  ∧ getItem "access_token" (browser w') = Some (access_token r)
  ∧ isLoading w' = false.
Proof.
  intros Hp Hn1 Hn2 b w'. subst w'.
  destruct (stored_after_login r w) as [Ht Hu]. fold b in Ht, Hu.
  unfold AuthContext.initAuth_request.
  rewrite (stored_session_Some (reloaded b) _ _ Ht Hu Hn1 Hn2), Hp.
  done.
Qed.


(** X21. The request interceptor changes nothing but the [Authorization]
    header: verb, path and every other header go out as the caller set
    them; an upload keeps its multipart content type while the token is
    attached. *)
Theorem interceptor_only_adds_authorization (b : Browser) (config : Config)
    (token : string) :
  method (request_interceptor b config) = method config
  ∧ url (request_interceptor b config) = url config
  ∧ (∀ k, k ≠ "Authorization" →
       headers (request_interceptor b config) !! k = headers config !! k)
  ∧ (getItem "access_token" b = Some token → token ≠ "" →
     headers (request_interceptor b upload_request) !! "Content-Type"
       = Some "multipart/form-data"
     ∧ bearer (request_interceptor b upload_request)
       = Some ("Bearer " +:+ token)).
Proof.
  assert (H : ∀ c, method (request_interceptor b c) = method c
              ∧ url (request_interceptor b c) = url c
              ∧ (∀ k, k ≠ "Authorization" →
                   headers (request_interceptor b c) !! k = headers c !! k)).
  { intros c. unfold request_interceptor.
    destruct (getItem "access_token" b) as [t|]; [|done].
    destruct (truthy t); [|done]. simpl.
    split; [done|]. split; [done|]. intros k Hk.
    by rewrite lookup_insert_ne. }
  destruct (H config) as (H1 & H2 & H3).
  split; [done|]. split; [done|]. split; [done|].
  intros Ht Hne. split; [|by apply request_with_token].
  destruct (H upload_request) as (_ & _ & H4). by rewrite H4.
Qed.

End SessionFacts.

Section SessionFactsAt.

Import Api AuthContext.
Local Open Scope Z_scope.

Lemma login_then_token_attached_witness :
  let r := {| access_token := "t1"; user_of := "bob" |} in
  Forall (λ c, bearer c = Some "Bearer t1")
    (sent_during string id id Some [Request "GET" "/datasets"]
       (fst (login string id id (Resolved (with_user r)) signed_in))).
Proof.
  intros r.
  apply (login_then_token_attached string id id Some r signed_in
           (Request "GET" "/datasets")).
  discriminate.
Defined.

Lemma initAuth_without_session_witness :
  let w := {| browser := {| localStorage := {[ "access_token" := "t0" ]};
                            location := "/" |};
              user := None; isLoading := true; toasts := []; sent := [] |} in
  browser (initAuth_request Some w) = browser w
  ∧ sent (initAuth_request Some w) = [].
Proof.
  intros w.
  destruct (initAuth_without_session string Some w) as (H1 & _ & H3 & _).
  - right. right. left. vm_compute. reflexivity.
  - split; [exact H1|exact H3].
Defined.

Lemma initAuth_validates_session_witness :
  let w := reloaded (browser signed_in) in
  user (initAuth_request Some w) = Some "ann"
  ∧ user (initAuth_settle (Rejected server_error)
            (initAuth_request Some w)) = None.
Proof.
  intros w.
  pose proof (initAuth_validates_session string Some w "t0" "ann"
                ltac:(vm_compute; reflexivity) ltac:(vm_compute; reflexivity)
                ltac:(discriminate) ltac:(discriminate)) as H.
  simpl in H. destruct H as (H1 & _ & _ & H4 & _).
  split; [exact H1|]. apply (H4 server_error).
Defined.

Lemma login_survives_reload_witness :
  let r := {| access_token := "t1"; user_of := "bob" |} in
  let b := browser (fst (login string id id (Resolved (with_user r)) signed_in)) in
  user (initAuth_settle (Resolved ())
          (initAuth_request Some (reloaded b))) = Some "bob".
Proof.
  intros r b.
  apply (login_survives_reload string id id Some r signed_in);
    [reflexivity|discriminate|discriminate].
Defined.


Lemma interceptor_only_adds_authorization_witness :
  headers (request_interceptor (browser signed_in) upload_request)
    !! "Content-Type" = Some "multipart/form-data".
Proof.
  apply (interceptor_only_adds_authorization (browser signed_in)
           upload_request "t0").
  - vm_compute. reflexivity.
  - discriminate.
Defined.

End SessionFactsAt.

(** ** The chart: first render, refresh, failures *)
Section ChartFacts.

Import Api ChartContainer.

Lemma x_axis_initial (columns numericColumns : list string) :
  x_axis (initialConfig columns numericColumns) = head_or_empty columns.
Proof.
  unfold x_axis, initialConfig.
  rewrite lookup_insert_ne by done. by rewrite lookup_insert_eq.
Qed.

Lemma truthy_head_or_empty (l : list string) :
  truthy (head_or_empty l) = match l with c :: _ => truthy c | [] => false end.
Proof. destruct l as [|c l]; [done|]. simpl. by destruct (truthy c) eqn:H. Qed.

(** X22. A chart mounted for a dataset without columns (or whose first
    column has an empty name) makes no call and shows nothing; otherwise
    it makes exactly one call, for a bar chart of the first column
    counted. *)
Theorem chart_first_call (id : string) (columns numericColumns : list string) :
  let s := mount id columns numericColumns in
  calls s
  = match columns with
    | c :: _ =>
        if truthy c then [(id, initialConfig columns numericColumns)] else []
    | [] => []
    end
  ∧ chartData s = None
  ∧ chartConfig s !! "chart_type" = Some "bar"
  ∧ chartConfig s !! "aggregate" = Some "count"
  ∧ chartConfig s !! "x_axis" = Some (default "" (head columns)).
Proof.
  intros s. subst s. unfold mount, effect. simpl.
  rewrite x_axis_initial, truthy_head_or_empty.
  assert (Hx : initialConfig columns numericColumns !! "x_axis"
               = Some (default "" (head columns))).
  { unfold initialConfig. rewrite lookup_insert_ne by done.
    rewrite lookup_insert_eq. destruct columns as [|c l]; [done|]. simpl.
    destruct c; done. }
  destruct columns as [|c l]; simpl.
  - by rewrite Hx.
  - destruct (truthy c); simpl; by rewrite Hx.
Qed.

(** X23. The refresh button calls [generateChart] without looking at the
    configuration: when no call is loading it sends exactly one call with
    the current configuration, also with an empty [x_axis]; while a call
    is loading a click sends nothing, so a double click sends one call. *)
Theorem refresh_sends_once (s : State) :
  isLoading s = false →
  let s1 := step s Refresh in
  let s2 := step s1 Refresh in
  issued s s1 = [(datasetId s, chartConfig s)]
  ∧ isLoading s1 = true
  ∧ s2 = s1.
Proof.
  intros Hl. simpl. rewrite Hl. simpl. split; [|done].
  by apply issued_app.
Qed.

Lemma refresh_sends_once_witness :
  let s := mount "d1" [] [] in
  issued s (step s Refresh) = [("d1", initialConfig [] [])]
  ∧ x_axis (chartConfig s) = "".
Proof.
  intros s. split; [|vm_compute; reflexivity].
  apply (refresh_sends_once s). reflexivity.
Defined.

(** X24. A rejected chart answer keeps the chart drawn before it, shows
    the server's detail (or the fixed text) and ends the loading state. *)
Theorem rejected_chart_keeps_drawing (s : State) (n : nat) (e : Error) :
  n ∈ in_flight s →
  let s' := step s (ChartResponse n (Rejected e)) in
  chartData s' = chartData s
  ∧ toasts s' = toasts s ++ [message_of e "Failed to generate chart"]
  ∧ isLoading s' = false
  ∧ (n ∉ in_flight s')
  ∧ calls s' = calls s.
Proof.
  intros Hn. simpl. unfold generateChart_settle.
  rewrite bool_decide_eq_true_2 by done. simpl.
  repeat (split; [done|]). split; [|done].
  rewrite list_elem_of_filter. by intros [? _].
Qed.

Lemma rejected_chart_keeps_drawing_witness :
  let s := step (mount "d1" ["name"] []) (ChartResponse 0 (Resolved "bars")) in
  let s1 := step s Refresh in
  chartData (step s1 (ChartResponse 1 (Rejected AuthContext.server_error)))
  = Some "bars".
Proof.
  intros s s1.
  destruct (rejected_chart_keeps_drawing s1 1 AuthContext.server_error)
    as (H & _).
  - vm_compute. apply list_elem_of_here.
  - rewrite H. vm_compute. reflexivity.
Defined.

Lemma handleConfigChange_config (k v : string) (s : State) :
  chartConfig (handleConfigChange k v s) = <[k := v]> (chartConfig s).
Proof. unfold handleConfigChange. by rewrite effect_config. Qed.

(** X25. Changes of two different fields commute on the configuration,
    and of two changes of one field the later one stands; the calls sent
    on the way differ, the configuration reached does not. *)
Theorem config_changes_compose (s : State) (k1 k2 v1 v2 : string) :
  (k1 ≠ k2 →
   chartConfig (play [ConfigChange k1 v1; ConfigChange k2 v2] s)
   = chartConfig (play [ConfigChange k2 v2; ConfigChange k1 v1] s))
  ∧ chartConfig (play [ConfigChange k1 v1; ConfigChange k1 v2] s)
    = chartConfig (play [ConfigChange k1 v2] s).
Proof.
  unfold play. cbn [fold_left step].
  rewrite !handleConfigChange_config. split.
  - intros Hne. by apply insert_insert_ne.
  - apply insert_insert_eq.
Qed.

Lemma config_changes_compose_witness :
  let s := mount "d1" ["name"; "age"] ["age"] in
  chartConfig (play [ConfigChange "chart_type" "pie";
                     ConfigChange "x_axis" "age"] s)
  = chartConfig (play [ConfigChange "x_axis" "age";
                       ConfigChange "chart_type" "pie"] s).
Proof.
  intros s.
  apply (proj1 (config_changes_compose s "chart_type" "x_axis" "pie" "age")).
  discriminate.
Defined.

Lemma effect_calls_x_axis (s : State) :
  Forall (λ c, truthy (x_axis (snd c)) = true) (calls s) →
  Forall (λ c, truthy (x_axis (snd c)) = true) (calls (effect s)).
Proof.
  intros H. unfold effect.
  destruct (truthy (x_axis (chartConfig s))) eqn:Hx; [|done].
  simpl. apply Forall_app. split; [done|]. by repeat constructor.
Qed.

(** X26. Short of the refresh button, the server is never asked for a
    chart without an x axis: every call made by mounting, by changing a
    field or by a change of dataset carries a non-empty [x_axis]. *)
Theorem calls_have_x_axis (id : string) (columns numericColumns : list string)
    (evs : list Event) :
  Forall (λ e, is_Refresh e = false) evs →
  Forall (λ c, truthy (x_axis (snd c)) = true)
         (calls (play evs (mount id columns numericColumns))).
Proof.
  intros Hevs.
  assert (H : ∀ evs s, Forall (λ e, is_Refresh e = false) evs →
            Forall (λ c, truthy (x_axis (snd c)) = true) (calls s) →
            Forall (λ c, truthy (x_axis (snd c)) = true) (calls (play evs s))).
  { clear. induction evs as [|e evs IH]; intros s He Hs; [done|].
    apply Forall_cons in He as [He Hevs]. simpl. apply IH; [done|].
    destruct e as [k v|i| |n r]; simpl; try done.
    - by apply effect_calls_x_axis.
    - unfold receive_datasetId. case_bool_decide; [done|].
      by apply effect_calls_x_axis.
    - unfold generateChart_settle. by case_bool_decide. }
  apply H; [done|]. unfold mount. apply effect_calls_x_axis. constructor.
Qed.

Lemma calls_have_x_axis_witness :
  Forall (λ c, truthy (x_axis (snd c)) = true)
    (calls (play [ConfigChange "x_axis" ""; ConfigChange "chart_type" "pie";
                  DatasetId "d2"; ConfigChange "x_axis" "age"]
              (mount "d1" ["name"; "age"] ["age"]))).
Proof.
  apply calls_have_x_axis. repeat constructor.
Defined.

End ChartFacts.

(** ** The upload form *)
Section UploadFacts.

Import Api FileUpload.

Lemma no_slash_dot_app_dot (base e : string) :
  no_slash_dot (base +:+ "." +:+ e) = false.
Proof.
  induction base as [|c base IH]; simpl; [done|].
  rewrite IH. by rewrite andb_false_r.
Qed.

(** X27. The dataset name suggested for a file is the file name up to its
    last dot, provided something without a slash follows that dot; a name
    of any other shape (no dot, a dot at the very end, a slash after the
    last dot) is taken whole. *)
Theorem strip_extension_last_dot (s : string) :
  (∀ base e, s = base +:+ "." +:+ e → e ≠ "" → no_slash_dot e = true →
     strip_extension s = base)
  ∧ ((∀ base e, s = base +:+ "." +:+ e → e = "" ∨ no_slash_dot e = false) →
     strip_extension s = s).
Proof.
  split.
  - intros base e -> He Hc. induction base as [|c base IH].
    + apply truthy_true in He.
      change (strip_extension (String "." e) = "").
      cbn [strip_extension]. by rewrite Ascii.eqb_refl, He, Hc.
    + change (strip_extension (String c (base +:+ "." +:+ e))
              = String c base).
      cbn [strip_extension].
      rewrite no_slash_dot_app_dot, andb_false_r. by rewrite IH.
  - induction s as [|c rest IH]; intros H; [done|]. simpl.
    destruct (Ascii.eqb c "." && truthy rest && no_slash_dot rest) eqn:Ht.
    + apply andb_true_iff in Ht as [Ht Hc].
      apply andb_true_iff in Ht as [Hd Hr].
      apply Ascii.eqb_eq in Hd. subst c.
      destruct (H "" rest eq_refl) as [->|Hn]; [done|congruence].
    + f_equal. apply IH. intros base e ->. by apply (H (String c base) e).
Qed.

Lemma strip_extension_last_dot_witness :
  strip_extension "sales.2024.csv" = "sales.2024"
  ∧ strip_extension "notes" = "notes".
Proof.
  split.
  - apply (proj1 (strip_extension_last_dot "sales.2024.csv")
             "sales.2024" "csv"); [reflexivity|discriminate|reflexivity].
  - reflexivity.
Defined.

(** Names the pattern leaves alone or cuts to nothing. *)
Example strip_extension_edges :
  strip_extension "report." = "report."
  ∧ strip_extension ".gitignore" = ""
  ∧ strip_extension "v1.2/data" = "v1.2/data".
Proof. repeat split. Qed.

Section WithTrim.

Variable trim : string → string.

Abbreviation handleUpload := (handleUpload trim).

(** X28. Without a selected file, or with a name that is blank after
    trimming, [handleUpload] sends nothing: it shows the error text and
    leaves the form and the uploading state as they are. *)
Theorem upload_refused (s : State) :
  selectedFile s = None ∨ trim (upload_name s) = "" →
  let s' := handleUpload s in
  uploads s' = uploads s
  ∧ toasts s'
    = toasts s ++ [AuthContext.error "Please select a file and provide a name"]
  ∧ isUploading s' = isUploading s
  ∧ selectedFile s' = selectedFile s
  ∧ upload_name s' = upload_name s ∧ description s' = description s.
Proof.
  intros H. unfold FileUpload.handleUpload.
  destruct (selectedFile s) as [f|] eqn:Hf; [|done].
  destruct H as [H|H]; [done|]. by rewrite H.
Qed.

(** X29. An upload that fails leaves the file, the name and the
    description in the form, so that a second click sends the same form
    data again; an upload that succeeds empties the form and tells the
    parent once, and a further click is refused. *)
Theorem upload_retry_and_reset (s : State) (file : File) (e : Error) :
  selectedFile s = Some file → trim (upload_name s) ≠ "" →
  let form := formData file (upload_name s) (description s) in
  let failed := handleUpload_settle (Rejected e) (handleUpload s) in
  let succeeded := handleUpload_settle (Resolved ()) (handleUpload s) in
  uploads (handleUpload s) = uploads s ++ [form]
  ∧ isUploading (handleUpload s) = true
  ∧ uploads (handleUpload failed) = uploads s ++ [form; form]
  ∧ isUploading failed = false ∧ notified failed = notified s
  ∧ selectedFile succeeded = None ∧ upload_name succeeded = ""
  ∧ description succeeded = "" ∧ notified succeeded = S (notified s)
  ∧ uploads (handleUpload succeeded) = uploads s ++ [form].
Proof.
  intros Hf Hn form failed succeeded. apply truthy_true in Hn.
  assert (H1 : handleUpload s
               = {| isUploading := true; upload_name := upload_name s;
                    description := description s;
                    selectedFile := selectedFile s; toasts := toasts s;
                    uploads := uploads s ++ [form];
                    notified := notified s |}).
  { unfold FileUpload.handleUpload. by rewrite Hf, Hn. }
  subst failed succeeded. rewrite H1. simpl.
  unfold FileUpload.handleUpload. simpl. rewrite Hf, Hn. simpl.
  by rewrite <- app_assoc.
Qed.

End WithTrim.

(** X30. Dropping files selects the first of them and ignores the rest;
    an empty drop changes nothing.  The name field is filled from the
    file only while it is empty: a name typed by the user, or suggested
    by an earlier file, is kept when another file is dropped. *)
Theorem onDrop_keeps_name (s : State) (f1 f2 : File) (more : list File) :
  onDrop [] s = s
  ∧ selectedFile (onDrop (f1 :: more) s) = Some f1
  ∧ (upload_name s = "" →
     upload_name (onDrop (f1 :: more) s) = strip_extension (file_name f1))
  ∧ (upload_name s ≠ "" →
     upload_name (onDrop (f1 :: more) s) = upload_name s)
  ∧ (upload_name s = "" → strip_extension (file_name f1) ≠ "" →
     let s2 := onDrop [f2] (onDrop [f1] s) in
     selectedFile s2 = Some f2
     ∧ upload_name s2 = strip_extension (file_name f1)).
Proof.
  unfold onDrop. simpl. split; [done|]. split; [done|]. split; [|split].
  - by intros ->.
  - intros Hn. apply truthy_true in Hn. by rewrite Hn.
  - intros -> Hn. simpl. apply truthy_true in Hn. by rewrite Hn.
Qed.

Lemma upload_refused_witness :
  uploads (FileUpload.handleUpload id initialState) = [].
Proof.
  apply (upload_refused id initialState). by left.
Defined.

Lemma upload_retry_and_reset_witness :
  let f := {| file_name := "sales.csv"; size := 120 |} in
  let s := onDrop [f] initialState in
  uploads (FileUpload.handleUpload id
             (handleUpload_settle (Rejected AuthContext.server_error)
                (FileUpload.handleUpload id s)))
  = [[("file", "sales.csv"); ("name", "sales")];
     [("file", "sales.csv"); ("name", "sales")]].
Proof.
  intros f s.
  apply (upload_retry_and_reset id s f AuthContext.server_error);
    [reflexivity|discriminate].
Defined.

Lemma onDrop_keeps_name_witness :
  let f1 := {| file_name := "sales.csv"; size := 120 |} in
  let f2 := {| file_name := "costs.xlsx"; size := 80 |} in
  upload_name (onDrop [f2] (onDrop [f1] initialState)) = "sales".
Proof.
  intros f1 f2.
  apply (onDrop_keeps_name initialState f1 f2 []);
    [reflexivity|discriminate].
Defined.

End UploadFacts.
